(** * Workflow validation of the FHIR-AI backend scripts

    A shallow embedding of [scripts/validate-github-actions.py]: the rule
    engine [validate_github_actions_workflow] that checks a parsed workflow
    document, and the exit status computed by [main]; then of the search
    for the files, of [scripts/validate-yaml.py] and of
    [scripts/validate-all.py], which runs the two.

    The document is what [yaml.safe_load] returns: [None], a [bool], an
    [int], a [str], a [list] or a [dict] whose keys are scalars, in
    insertion order.  Python raises on an operation a value does not
    support; the validator runs inside one [try] block whose handlers turn
    every exception into a [(False, [message])] result.  Both are modelled:
    the operations return a [result], the body threads the [issues] list
    through an error-and-state monad, and the handlers are the final match
    of [validate_github_actions_workflow].

    A string is a sequence of 8-bit characters, and the strings the
    validator builds keep their replacement fields unrendered ([text]).
    The interpreter is CPython 3.11 or later with its default settings:
    [str()] of an integer of more than 4300 digits raises [ValueError], and
    [yaml.safe_load] builds such integers from hexadecimal literals. *)

From Stdlib Require Import List String Ascii ZArith Bool Lia DecimalString Permutation.
Import ListNotations.
Local Open Scope string_scope.
Local Open Scope Z_scope.
Local Open Scope list_scope.
Set Warnings "-register-all".

(** ** Parsed documents *)

(** Scalars.  Numbers are the integers: a float, a timestamp or a binary
    scalar goes the way of an [int] through every operation used here (it is
    no container, it has no [keys], [items] or [get], and its [str()] is
    never ['on']). *)
Inductive scalar : Type :=
| SNull
| SBool (b : bool)
| SInt (z : Z)
| SStr (s : string).

(** A [dict] is the list of its entries in insertion order; a Python dict
    holds a key once, and wherever a key is looked up the first entry that
    has it is the one found. *)
Inductive yaml : Type :=
| YScalar (s : scalar)
| YSeq (l : list yaml)
| YMap (m : list (scalar * yaml)).

Inductive pytype : Type := NoneType | PyBool | PyInt | PyStr | PyList | PyDict.

Definition type_of (v : yaml) : pytype :=
  match v with
  | YScalar SNull => NoneType
  | YScalar (SBool _) => PyBool
  | YScalar (SInt _) => PyInt
  | YScalar (SStr _) => PyStr
  | YSeq _ => PyList
  | YMap _ => PyDict
  end.

(** ** Exceptions *)

(** [YAMLError] and [OSError] come from reading and parsing the file, the
    others from the operations of the rule engine.  The text of an
    exception depends on the interpreter's version, so an exception is kept
    by its kind and the type of the offending object. *)
Inductive exn : Type :=
| YAMLError (msg : string)
| OSError (msg : string)
| NotContainer (t : pytype)            (* TypeError: [x in v], [v] no container *)
| NotIterable (t : pytype)             (* TypeError: [for x in v] *)
| BadIndex (t : pytype)                (* TypeError: [v['k']] on a non-dict *)
| KeyError (k : string)
| AttributeError (t : pytype) (attr : string)
| IntStrLimit.                         (* ValueError: [str()] of an integer too long *)

Inductive result (A : Type) : Type :=
| Ok (a : A)
| Raise (e : exn).
Arguments Ok {A} a.
Arguments Raise {A} e.

(** ** Strings built by the validator *)

(** An f-string is kept as the sequence of its literal parts and
    replacement fields: [Fmt v] stands for [str(v)], which for a container
    is Python's [repr], and [FmtExn e] for [str(e)]. *)
Inductive piece : Type :=
| Lit (s : string)
| Fmt (v : yaml)
| FmtExn (e : exn).

Definition text : Type := list piece.

(** The least integer whose decimal form has more than 4300 digits, the
    default of [sys.int_max_str_digits]: 1 followed by 4300 zeros. *)
Definition int_str_limit : Z := 10000000000000000000000000000000000000000000000000000000000000000000000000000000000000000000000000000000000000000000000000000000000000000000000000000000000000000000000000000000000000000000000000000000000000000000000000000000000000000000000000000000000000000000000000000000000000000000000000000000000000000000000000000000000000000000000000000000000000000000000000000000000000000000000000000000000000000000000000000000000000000000000000000000000000000000000000000000000000000000000000000000000000000000000000000000000000000000000000000000000000000000000000000000000000000000000000000000000000000000000000000000000000000000000000000000000000000000000000000000000000000000000000000000000000000000000000000000000000000000000000000000000000000000000000000000000000000000000000000000000000000000000000000000000000000000000000000000000000000000000000000000000000000000000000000000000000000000000000000000000000000000000000000000000000000000000000000000000000000000000000000000000000000000000000000000000000000000000000000000000000000000000000000000000000000000000000000000000000000000000000000000000000000000000000000000000000000000000000000000000000000000000000000000000000000000000000000000000000000000000000000000000000000000000000000000000000000000000000000000000000000000000000000000000000000000000000000000000000000000000000000000000000000000000000000000000000000000000000000000000000000000000000000000000000000000000000000000000000000000000000000000000000000000000000000000000000000000000000000000000000000000000000000000000000000000000000000000000000000000000000000000000000000000000000000000000000000000000000000000000000000000000000000000000000000000000000000000000000000000000000000000000000000000000000000000000000000000000000000000000000000000000000000000000000000000000000000000000000000000000000000000000000000000000000000000000000000000000000000000000000000000000000000000000000000000000000000000000000000000000000000000000000000000000000000000000000000000000000000000000000000000000000000000000000000000000000000000000000000000000000000000000000000000000000000000000000000000000000000000000000000000000000000000000000000000000000000000000000000000000000000000000000000000000000000000000000000000000000000000000000000000000000000000000000000000000000000000000000000000000000000000000000000000000000000000000000000000000000000000000000000000000000000000000000000000000000000000000000000000000000000000000000000000000000000000000000000000000000000000000000000000000000000000000000000000000000000000000000000000000000000000000000000000000000000000000000000000000000000000000000000000000000000000000000000000000000000000000000000000000000000000000000000000000000000000000000000000000000000000000000000000000000000000000000000000000000000000000000000000000000000000000000000000000000000000000000000000000000000000000000000000000000000000000000000000000000000000000000000000000000000000000000000000000000000000000000000000000000000000000000000000000000000000000000000000000000000000000000000000000000000000000000000000000000000000000000000000000000000000000000000000000000000000000000000000000000000000000000000000000000000000000000000000000000000000000000000000000000000000000000000000000000000000000000000000000000000000000000000000000000000000000000000000000000000000000000000000000000000000000000000000000000000000000000000000000000000000000000000000000000000000000000000000000000000000000000000000000000000000000000000000000000000000000000000000000000000000000000000000000000000000000000000000000000000000000000000000000000000000000000000000000000000000000000000000000000000000000000000000000000000000000000000000000000000000000000000000000000000000000000000000000000000000000000000000000000000000000000000000000000000000000000000000000000000000000000000000000000000000000000000000000000000000000000000000000000000000000000000000000000000000000000000000000000000000000000000000000000000000000000000000000000000000000000000000000000000000000000000000000000000000000000000000000000000000000000000000000000000000000000000000000000000000000000000000000000000000000000000000000000000000000000000000000000000000000000000000000000000000000000000000000000000000000000000000000000000000000000000000000000000000000000000000000000000000000000000000000000000000000000000000000000000000000000000000000000000.

(** Whether [str()] refuses the integer: its digits, the sign apart, are
    more than 4300. *)
Definition too_long (z : Z) : bool := int_str_limit <=? Z.abs z.
Arguments too_long z : simpl never.

(** The decimal form of an integer. *)
Definition decimal (z : Z) : string := NilZero.string_of_int (Z.to_int z).

(** [str()] of a scalar. *)
Definition py_str (k : scalar) : result string :=
  match k with
  | SNull => Ok "None"
  | SBool true => Ok "True"
  | SBool false => Ok "False"
  | SInt z => if too_long z then Raise IntStrLimit else Ok (decimal z)
  | SStr s => Ok s
  end.

(** Whether a replacement field can be formatted: [str()] of a container
    is its [repr], which formats every integer in it, keys included. *)
Definition scalar_renders (k : scalar) : bool :=
  match k with
  | SInt z => negb (too_long z)
  | _ => true
  end.

Fixpoint renders (v : yaml) : bool :=
  match v with
  | YScalar k => scalar_renders k
  | YSeq l => forallb renders l
  | YMap m => forallb (fun entry : scalar * yaml =>
                         let (k, x) := entry in scalar_renders k && renders x) m
  end.

Definition piece_renders (p : piece) : bool :=
  match p with
  | Fmt v => renders v
  | Lit _ | FmtExn _ => true
  end.

(** Formatting one replacement field, and a whole f-string, whose fields
    are formatted from left to right. *)
Definition format (v : yaml) : result unit :=
  if renders v then Ok tt else Raise IntStrLimit.

Definition fstring (t : text) : result text :=
  if forallb piece_renders t then Ok t else Raise IntStrLimit.

(** [str.lower()] on the ASCII letters; no other character lowercases to
    [o] or [n], which is all the comparison with ['on'] looks at. *)
Definition lower_ascii (c : ascii) : ascii :=
  let n := N_of_ascii c in
  if ((65 <=? n) && (n <=? 90))%N then ascii_of_N (n + 32) else c.

Fixpoint lower (s : string) : string :=
  match s with
  | EmptyString => EmptyString
  | String c s' => String (lower_ascii c) (lower s')
  end.

(** ** The operations of Python the validator uses *)

Definition is_str (needle : string) (k : scalar) : bool :=
  match k with
  | SStr s => String.eqb needle s
  | _ => false
  end.

Definition is_str_value (needle : string) (v : yaml) : bool :=
  match v with
  | YScalar k => is_str needle k
  | _ => false
  end.

(** [needle in s] on two strings: [needle] occurs in [s]. *)
Fixpoint occurs (needle s : string) : bool :=
  if prefix needle s then true
  else match s with
       | EmptyString => false
       | String _ s' => occurs needle s'
       end.

(** [needle in v]: a key of a dict, an element of a list, a substring of a
    string; a [TypeError] on anything else. *)
Definition py_in (needle : string) (v : yaml) : result bool :=
  match v with
  | YMap m => Ok (existsb (fun kv => is_str needle (fst kv)) m)
  | YSeq l => Ok (existsb (is_str_value needle) l)
  | YScalar (SStr s) => Ok (occurs needle s)
  | YScalar _ => Raise (NotContainer (type_of v))
  end.

Fixpoint dict_lookup (k : string) (m : list (scalar * yaml)) : option yaml :=
  match m with
  | [] => None
  | (k', v) :: m' => if is_str k k' then Some v else dict_lookup k m'
  end.

(** [v[k]] with a string [k]. *)
Definition py_getitem (v : yaml) (k : string) : result yaml :=
  match v with
  | YMap m => match dict_lookup k m with
              | Some x => Ok x
              | None => Raise (KeyError k)
              end
  | _ => Raise (BadIndex (type_of v))
  end.

(** [v.keys()], [v.items()] and [v.get(k, default)] exist on a dict only. *)
Definition py_keys (v : yaml) : result (list scalar) :=
  match v with
  | YMap m => Ok (map fst m)
  | _ => Raise (AttributeError (type_of v) "keys")
  end.

Definition py_items (v : yaml) : result (list (scalar * yaml)) :=
  match v with
  | YMap m => Ok m
  | _ => Raise (AttributeError (type_of v) "items")
  end.

(** Looking up the method [get], which comes before its arguments are
    evaluated. *)
Definition py_get_method (v : yaml) : result unit :=
  match v with
  | YMap _ => Ok tt
  | _ => Raise (AttributeError (type_of v) "get")
  end.

Definition py_get (v : yaml) (k : string) (default : yaml) : result yaml :=
  match v with
  | YMap m => match dict_lookup k m with
              | Some x => Ok x
              | None => Ok default
              end
  | _ => Raise (AttributeError (type_of v) "get")
  end.

Fixpoint chars (s : string) : list yaml :=
  match s with
  | EmptyString => []
  | String c s' => YScalar (SStr (String c EmptyString)) :: chars s'
  end.

(** What [for x in v] goes through: the elements of a list, the keys of a
    dict, the characters of a string. *)
Definition py_iter (v : yaml) : result (list yaml) :=
  match v with
  | YSeq l => Ok l
  | YMap m => Ok (map (fun kv => YScalar (fst kv)) m)
  | YScalar (SStr s) => Ok (chars s)
  | YScalar _ => Raise (NotIterable (type_of v))
  end.

(** ** The monad of the [try] block: the [issues] list is the state *)

Definition M (A : Type) : Type := list text -> result (A * list text).

Definition ret {A} (a : A) : M A := fun issues => Ok (a, issues).

Definition bind {A B} (c : M A) (f : A -> M B) : M B :=
  fun issues =>
    match c issues with
    | Ok (a, issues') => f a issues'
    | Raise e => Raise e
    end.

Definition lift {A} (r : result A) : M A :=
  fun issues =>
    match r with
    | Ok a => Ok (a, issues)
    | Raise e => Raise e
    end.

(** [issues.append(t)] *)
Definition append (t : text) : M unit := fun issues => Ok (tt, (issues ++ [t])%list).

Definition when (b : bool) (c : M unit) : M unit := if b then c else ret tt.

(** [issues.append(f"...")]: the f-string is built, then appended. *)
Definition emit (t : text) : M unit :=
  fun issues =>
    match fstring t with
    | Ok t' => Ok (tt, (issues ++ [t'])%list)
    | Raise e => Raise e
    end.

Declare Scope monad_scope.
Delimit Scope monad_scope with monad.
Notation "x <- c ;; k" := (bind c (fun x => k))
  (at level 61, c at next level, right associativity) : monad_scope.
Notation "c ;; k" := (bind c (fun _ => k))
  (at level 61, right associativity) : monad_scope.
Local Open Scope monad_scope.

(** [for x in l: body(x)] *)
Fixpoint for_each {A} (l : list A) (body : A -> M unit) : M unit :=
  match l with
  | [] => ret tt
  | x :: l' => body x ;; for_each l' body
  end.

(** [for i, x in enumerate(l): body(i, x)], counting from [i]. *)
Fixpoint for_enumerate {A} (i : Z) (l : list A) (body : Z -> A -> M unit) : M unit :=
  match l with
  | [] => ret tt
  | x :: l' => body i x ;; for_enumerate (i + 1) l' body
  end.

(** ** The messages *)

Definition msg_missing_name : text := [Lit "Missing 'name' field"].
Definition msg_missing_on : text := [Lit "Missing 'on' field (triggers)"].
Definition msg_missing_jobs : text := [Lit "Missing 'jobs' field"].

Definition msg_job_runs_on (job_name : scalar) : text :=
  [Lit "Job '"; Fmt (YScalar job_name); Lit "' missing 'runs-on' field"].

Definition msg_job_steps (job_name : scalar) : text :=
  [Lit "Job '"; Fmt (YScalar job_name); Lit "' missing 'steps' field"].

Definition msg_step_name (job_name : scalar) (i : Z) : text :=
  [Lit "Job '"; Fmt (YScalar job_name); Lit "' step ";
   Fmt (YScalar (SInt (i + 1))); Lit " missing 'name' field"].

Definition msg_step_action (job_name : scalar) (label : yaml) : text :=
  [Lit "Job '"; Fmt (YScalar job_name); Lit "' step '";
   Fmt label; Lit "' missing 'uses' or 'run' field"].

Definition msg_yaml_error (e : exn) : text := [Lit "YAML syntax error: "; FmtExn e].
Definition msg_read_error (e : exn) : text := [Lit "Error reading file: "; FmtExn e].

(** ** validate_github_actions_workflow *)

(** [str(key).lower() == 'on' or key is True] *)
Definition is_on_key (key : scalar) : result bool :=
  match py_str key with
  | Ok s => Ok (String.eqb (lower s) "on"
                || match key with SBool true => true | _ => false end)
  | Raise e => Raise e
  end.

(** The loop over [workflow.keys()], which stops at the first match, or
    at the first key [str()] refuses. *)
Fixpoint has_on_field (keys : list scalar) : result bool :=
  match keys with
  | [] => Ok false
  | key :: keys' =>
      match is_on_key key with
      | Ok true => Ok true
      | Ok false => has_on_field keys'
      | Raise e => Raise e
      end
  end.

(** The body of the loop over the steps of one job.  The f-string of the
    second message is built from left to right: [job_name] is formatted,
    then [step.get] is looked up, its default [f'{i+1}'] is built, [get]
    is called and its value formatted. *)
Definition check_step (job_name : scalar) (i : Z) (step : yaml) : M unit :=
  has_name <- lift (py_in "name" step) ;;
  when (negb has_name) (emit (msg_step_name job_name i)) ;;
  has_uses <- lift (py_in "uses" step) ;;
  no_action <- (if has_uses then ret false
                else has_run <- lift (py_in "run" step) ;; ret (negb has_run)) ;;
  if no_action : bool then
    lift (format (YScalar job_name)) ;;
    lift (py_get_method step) ;;
    default <- lift (py_str (SInt (i + 1))) ;;
    label <- lift (py_get step "name" (YScalar (SStr default))) ;;
    lift (format label) ;;
    append (msg_step_action job_name label)
  else ret tt.

(** The body of the loop over [workflow['jobs'].items()]. *)
Definition check_job (job : scalar * yaml) : M unit :=
  let (job_name, job_config) := job in
  has_runs_on <- lift (py_in "runs-on" job_config) ;;
  when (negb has_runs_on) (emit (msg_job_runs_on job_name)) ;;
  has_steps <- lift (py_in "steps" job_config) ;;
  if has_steps : bool then
    steps_value <- lift (py_getitem job_config "steps") ;;
    steps <- lift (py_iter steps_value) ;;
    for_enumerate 0 steps (check_step job_name)
  else emit (msg_job_steps job_name).

(** The statements of the [try] block after the document is loaded. *)
Definition check_workflow (workflow : yaml) : M unit :=
  has_name <- lift (py_in "name" workflow) ;;
  when (negb has_name) (append msg_missing_name) ;;
  keys <- lift (py_keys workflow) ;;
  has_on_field <- lift (has_on_field keys) ;;
  when (negb has_on_field) (append msg_missing_on) ;;
  has_jobs <- lift (py_in "jobs" workflow) ;;
  when (negb has_jobs) (append msg_missing_jobs) ;;
  has_jobs' <- lift (py_in "jobs" workflow) ;;
  if has_jobs' : bool then
    jobs_value <- lift (py_getitem workflow "jobs") ;;
    jobs <- lift (py_items jobs_value) ;;
    for_each jobs check_job
  else ret tt.

(** [loaded] is the outcome of opening the file and of [yaml.safe_load]:
    the document, or the exception raised.  The result is the pair
    [(parsed, issues)] the function returns. *)
Definition validate_github_actions_workflow (loaded : result yaml) : bool * list text :=
  let outcome :=
    match loaded with
    | Ok workflow => check_workflow workflow []
    | Raise e => Raise e
    end in
  match outcome with
  | Ok (_, issues) => (true, issues)
  | Raise (YAMLError msg) => (false, [msg_yaml_error (YAMLError msg)])
  | Raise e => (false, [msg_read_error e])
  end.

(** The rule engine on a parsed document. *)
Definition evaluate (doc : yaml) : bool * list text :=
  validate_github_actions_workflow (Ok doc).

(** ** main *)

(** [results] are the results of [validate_github_actions_workflow] on the
    workflow files found, in the order [main] visits them.  The loop counts
    the files that are valid ([is_valid and not issues]) and the others. *)
Definition is_clean (r : bool * list text) : bool :=
  fst r && match snd r with [] => true | _ => false end.

Fixpoint count_results (results : list (bool * list text)) (valid_count invalid_count : Z)
  : Z * Z :=
  match results with
  | [] => (valid_count, invalid_count)
  | r :: results' =>
      if is_clean r then count_results results' (valid_count + 1) invalid_count
      else count_results results' valid_count (invalid_count + 1)
  end.

(** The value [main] returns, the exit status of the process. *)
Definition main (results : list (bool * list text)) : Z :=
  match results with
  | [] => 1
  | _ =>
      let (valid_count, invalid_count) := count_results results 0 0 in
      if 0 <? invalid_count then 1 else 0
  end.

(** ** Auxiliary notions *)

(** A computation that only appends issues, all of them in [P]. *)
Definition writes {A} (P : text -> Prop) (c : M A) : Prop :=
  forall s a s', c s = Ok (a, s') -> exists d, s' = s ++ d /\ Forall P d.

(** Whether a lookup found the key. *)
Definition present (o : option yaml) : bool :=
  match o with Some _ => true | None => false end.

(** ** The scopes of the specification *)

(** An issue is of Document, Job or Step scope by the statement that
    appends it; the texts of the three groups differ in their literal
    parts, which is what [scope_of] reads. *)
Inductive scope : Type := Document | Job | Step.

Definition scope_of (t : text) : option scope :=
  match t with
  | [Lit a] =>
      if String.eqb a "Missing 'name' field"
         || String.eqb a "Missing 'on' field (triggers)"
         || String.eqb a "Missing 'jobs' field"
      then Some Document else None
  | [Lit a; Fmt (YScalar _); Lit b] =>
      if String.eqb a "Job '"
         && (String.eqb b "' missing 'runs-on' field"
             || String.eqb b "' missing 'steps' field")
      then Some Job else None
  | [Lit a; Fmt (YScalar _); Lit b; Fmt _; Lit c] =>
      if String.eqb a "Job '"
         && ((String.eqb b "' step " && String.eqb c " missing 'name' field")
             || (String.eqb b "' step '"
                 && String.eqb c "' missing 'uses' or 'run' field"))
      then Some Step else None
  | _ => None
  end.

(** The job a Job- or Step-scope issue names. *)
Definition job_of (t : text) : option scalar :=
  match scope_of t, t with
  | Some Job, _ :: Fmt (YScalar job_name) :: _ => Some job_name
  | Some Step, _ :: Fmt (YScalar job_name) :: _ => Some job_name
  | _, _ => None
  end.

(** Whether an issue is of Document scope. *)
Definition is_document_scope (t : text) : bool :=
  match scope_of t with Some Document => true | _ => false end.

(** A Job- or Step-scope issue that names the job [job_name]. *)
Definition of_job (job_name : scalar) (t : text) : Prop :=
  job_of t = Some job_name /\ (scope_of t = Some Job \/ scope_of t = Some Step).

Definition has_key (k : scalar) (m : list (scalar * yaml)) : Prop :=
  In k (map fst m).

(** What one job adds: issues of its own, and for a job whose [steps] is
    the empty list nothing but the [runs-on] issue. *)
Definition job_block (job : scalar * yaml) (d : list text) : Prop :=
  Forall (of_job (fst job)) d
  /\ forall j, snd job = YMap j -> dict_lookup "steps" j = Some (YSeq []) ->
               forall t, In t d -> t = msg_job_runs_on (fst job)
                                   /\ ~ has_key (SStr "runs-on") j.

(** A result [main] counts as valid. *)
Definition clean (r : bool * list text) : Prop := fst r = true /\ snd r = [].

(** The valid minimal documents of the specification. *)
Definition valid_step (step : yaml) : Prop :=
  exists s, step = YMap s /\ has_key (SStr "name") s
            /\ (has_key (SStr "uses") s \/ has_key (SStr "run") s).

Definition valid_job (job_config : yaml) : Prop :=
  exists j steps, job_config = YMap j /\ has_key (SStr "runs-on") j
                  /\ dict_lookup "steps" j = Some (YSeq steps)
                  /\ steps <> [] /\ Forall valid_step steps.

Definition valid_document (doc : yaml) : Prop :=
  exists m jobs, doc = YMap m /\ has_key (SStr "name") m
                 /\ (has_key (SStr "on") m \/ has_key (SBool true) m)
                 /\ dict_lookup "jobs" m = Some (YMap jobs)
                 /\ jobs <> [] /\ Forall (fun job => valid_job (snd job)) jobs.

(** ** Sample documents *)

Definition str (s : string) : yaml := YScalar (SStr s).

(** [{name: ci, on: push, jobs: [build]}], with [on] read as [True]. *)
Definition doc_jobs_list : yaml :=
  YMap [(SStr "name", str "ci"); (SBool true, str "push");
        (SStr "jobs", YSeq [str "build"])].

(** Jobs [B] then [A], both incomplete. *)
Definition doc_b_then_a : yaml :=
  YMap [(SStr "name", str "ci"); (SStr "on", str "push");
        (SStr "jobs",
         YMap [(SStr "B", YMap [(SStr "steps", YSeq [YMap [(SStr "run", str "make")]])]);
               (SStr "A", YMap [(SStr "runs-on", str "ubuntu-latest")])])].

Definition doc_minimal : yaml :=
  YMap [(SStr "name", str "ci"); (SBool true, str "push");
        (SStr "jobs",
         YMap [(SStr "build",
                YMap [(SStr "runs-on", str "ubuntu-latest");
                      (SStr "steps",
                       YSeq [YMap [(SStr "name", str "checkout");
                                   (SStr "uses", str "actions/checkout@v4")]])])])].

(** The [jobs: {build: {steps: [{uses: checkout}]}}] scenario. *)
Definition doc_scenario : yaml :=
  YMap [(SStr "jobs",
         YMap [(SStr "build",
                YMap [(SStr "steps", YSeq [YMap [(SStr "uses", str "checkout")]])])])].

(** A job whose list of steps is empty and that runs nowhere. *)
Definition doc_no_steps : yaml :=
  YMap [(SStr "name", str "ci"); (SStr "on", str "push");
        (SStr "jobs", YMap [(SStr "build", YMap [(SStr "steps", YSeq [])])])].

(** A workflow that declares no job. *)
Definition doc_no_jobs_declared : yaml :=
  YMap [(SStr "name", str "ci"); (SStr "ON", str "push"); (SStr "jobs", YMap [])].

(** A result [main] counts as one with issues. *)
Definition is_dirty (r : bool * list text) : bool := negb (is_clean r).

(** The status of the process that runs [sys.exit(main())]: the value of
    [main], or 1 when an exception escapes. *)
Definition exit_status (r : result Z) : Z :=
  match r with
  | Ok status => status
  | Raise _ => 1
  end.

(** ** Shapes the rule engine expects *)




Definition is_mapping (v : yaml) : bool :=
  match v with YMap _ => true | _ => false end.

(** A job that is a mapping whose [steps], if any, is a list of mappings. *)
Definition well_shaped_job (job_config : yaml) : bool :=
  match job_config with
  | YMap j => match dict_lookup "steps" j with
              | None => true
              | Some (YSeq steps) => forallb is_mapping steps
              | Some _ => false
              end
  | _ => false
  end.

(** A mapping whose [jobs], if any, is a mapping of such jobs. *)
Definition well_shaped (doc : yaml) : bool :=
  match doc with
  | YMap m => match dict_lookup "jobs" m with
              | None => true
              | Some (YMap jobs) => forallb (fun job => well_shaped_job (snd job)) jobs
              | Some _ => false
              end
  | _ => false
  end.

(** A job with [runs-on] and a list of steps, possibly empty, that each
    have a name and an action. *)
Definition complete_job (job_config : yaml) : Prop :=
  exists j steps, job_config = YMap j /\ has_key (SStr "runs-on") j
                  /\ dict_lookup "steps" j = Some (YSeq steps)
                  /\ Forall valid_step steps.

(** The issues of the steps, of a job and of a document of these shapes,
    as lists. *)
Definition step_issues (job_name : scalar) (i : Z) (step : yaml) : list text :=
  match step with
  | YMap st =>
      (if present (dict_lookup "name" st) then [] else [msg_step_name job_name i])
      ++ (if present (dict_lookup "uses" st) || present (dict_lookup "run" st) then []
          else [msg_step_action job_name
                  match dict_lookup "name" st with
                  | Some x => x
                  | None => YScalar (SStr (decimal (i + 1)))
                  end])
  | _ => []
  end.

Fixpoint steps_issues (job_name : scalar) (i : Z) (steps : list yaml) : list text :=
  match steps with
  | [] => []
  | step :: steps' => step_issues job_name i step ++ steps_issues job_name (i + 1) steps'
  end.

Definition job_issues (job : scalar * yaml) : list text :=
  match snd job with
  | YMap j =>
      (if present (dict_lookup "runs-on" j) then [] else [msg_job_runs_on (fst job)])
      ++ match dict_lookup "steps" j with
         | None => [msg_job_steps (fst job)]
         | Some (YSeq steps) => steps_issues (fst job) 0 steps
         | Some _ => []
         end
  | _ => []
  end.

Definition document_issues (doc : yaml) : list text :=
  match doc with
  | YMap m =>
      (if present (dict_lookup "name" m) then [] else [msg_missing_name])
      ++ match has_on_field (map fst m) with
         | Ok true => []
         | _ => [msg_missing_on]
         end
      ++ match dict_lookup "jobs" m with
         | None => [msg_missing_jobs]
         | Some (YMap jobs) => flat_map job_issues jobs
         | Some _ => []
         end
  | _ => []
  end.

(** Whether the f-strings that a step, a job and a document of these
    shapes call for can be built, and the loop over the keys ends. *)
Definition step_renders (job_name : scalar) (i : Z) (step : yaml) : bool :=
  match step with
  | YMap st =>
      (present (dict_lookup "name" st)
       || (scalar_renders job_name && negb (too_long (i + 1))))
      && (present (dict_lookup "uses" st) || present (dict_lookup "run" st)
          || (scalar_renders job_name && negb (too_long (i + 1))
              && match dict_lookup "name" st with
                 | Some x => renders x
                 | None => true
                 end))
  | _ => true
  end.

Fixpoint steps_render (job_name : scalar) (i : Z) (steps : list yaml) : bool :=
  match steps with
  | [] => true
  | step :: steps' => step_renders job_name i step && steps_render job_name (i + 1) steps'
  end.

Definition job_renders (job : scalar * yaml) : bool :=
  match snd job with
  | YMap j =>
      (present (dict_lookup "runs-on" j) || scalar_renders (fst job))
      && match dict_lookup "steps" j with
         | None => scalar_renders (fst job)
         | Some (YSeq steps) => steps_render (fst job) 0 steps
         | Some _ => true
         end
  | _ => true
  end.

Definition document_renders (doc : yaml) : bool :=
  match doc with
  | YMap m =>
      match has_on_field (map fst m) with
      | Ok _ => match dict_lookup "jobs" m with
                | Some (YMap jobs) => forallb job_renders jobs
                | _ => true
                end
      | Raise _ => false
      end
  | _ => true
  end.

(** A trigger key the loop over the keys reaches: no key before it is an
    integer [str()] refuses. *)
Definition trigger_reached (m : list (scalar * yaml)) : Prop :=
  exists pre k v post,
    m = pre ++ (k, v) :: post
    /\ (k = SStr "on" \/ k = SBool true)
    /\ Forall (fun entry => scalar_renders (fst entry) = true) pre.

(** [doc_minimal] with, before its other keys, an integer key of 4301
    digits. *)
Definition doc_long_key : yaml :=
  YMap [(SInt int_str_limit, str "x");
        (SStr "name", str "ci"); (SBool true, str "push");
        (SStr "jobs",
         YMap [(SStr "build",
                YMap [(SStr "runs-on", str "ubuntu-latest");
                      (SStr "steps",
                       YSeq [YMap [(SStr "name", str "checkout");
                                   (SStr "uses", str "actions/checkout@v4")]])])])].

(** The number of steps of a job of these shapes. *)
Definition step_count (job : scalar * yaml) : nat :=
  match snd job with
  | YMap j => match dict_lookup "steps" j with
              | Some (YSeq steps) => List.length steps
              | _ => 0%nat
              end
  | _ => 0%nat
  end.

Definition jobs_of (doc : yaml) : list (scalar * yaml) :=
  match doc with
  | YMap m => match dict_lookup "jobs" m with
              | Some (YMap jobs) => jobs
              | _ => []
              end
  | _ => []
  end.

(** ** Files and paths *)

(** [s.endswith(suffix)] *)
Fixpoint ends_with (suffix s : string) : bool :=
  if String.eqb suffix s then true
  else match s with
       | EmptyString => false
       | String _ s' => ends_with suffix s'
       end.

(** [file.endswith(('.yml', '.yaml'))] *)
Definition is_yaml_name (file : string) : bool :=
  ends_with ".yml" file || ends_with ".yaml" file.

(** [os.path.join(a, b)] on POSIX paths. *)
Definition path_join (a b : string) : string :=
  if prefix "/" b then b
  else if String.eqb a "" || ends_with "/" a then (a ++ b)%string
  else (a ++ "/" ++ b)%string.

(** [sorted(l)] on strings: the order is that of the character codes. *)
Fixpoint insert_sorted (x : string) (l : list string) : list string :=
  match l with
  | [] => [x]
  | y :: l' => if String.leb x y then x :: l else y :: insert_sorted x l'
  end.

Fixpoint sorted (l : list string) : list string :=
  match l with
  | [] => []
  | x :: l' => insert_sorted x (sorted l')
  end.

(** What the file system answers for a path: nothing is there
    ([os.path.exists] is false), or [os.listdir] returns the names of the
    entries, or the path exists and [os.listdir] raises (it is no
    directory, or may not be read). *)
Inductive listing : Type :=
| NoSuchPath
| Entries (names : list string)
| ListFails (e : exn).

(** ** find_workflow_files and the whole of main *)

Definition find_workflow_files (directory : string) (fs : string -> listing)
  : result (list string) :=
  let workflows_dir := path_join (path_join directory ".github") "workflows" in
  match fs workflows_dir with
  | NoSuchPath => Ok []
  | Entries names => Ok (map (path_join workflows_dir) (filter is_yaml_name names))
  | ListFails e => Raise e
  end.

(** [main()] from the file system: [load] gives for a path the outcome of
    opening and parsing it.  [find_workflow_files] runs outside any [try],
    so its exception ends the run; otherwise the value is the exit status. *)
Definition main_run (fs : string -> listing) (load : string -> result yaml) : result Z :=
  match find_workflow_files "." fs with
  | Ok workflow_files =>
      Ok (main (map (fun file_path => validate_github_actions_workflow (load file_path))
                    (sorted workflow_files)))
  | Raise e => Raise e
  end.

(** ** validate-yaml.py *)

Module ValidateYaml.

(** [validate_yaml_file]: only the loading is tried; the second component
    is [None] or the error text. *)
Definition validate_yaml_file (loaded : result yaml) : bool * option text :=
  match loaded with
  | Ok _ => (true, None)
  | Raise (YAMLError msg) => (false, Some [FmtExn (YAMLError msg)])
  | Raise e => (false, Some (msg_read_error e))
  end.

(** The test of the comprehension that prunes [dirs] in place. *)
Definition keep_dir (d : string) : bool :=
  negb (String.eqb d ".git") && negb (String.eqb d "node_modules")
  && negb (prefix "." d && negb (String.eqb d ".github")).

(** A directory as [os.walk] sees it: its subdirectories and its files, in
    the order they are listed. *)
Inductive tree : Type :=
| Dir (dirs : list (string * tree)) (files : list string).

(** [find_yaml_files]: [os.walk] yields a directory before its
    subdirectories and descends only into the names left in [dirs]. *)
Fixpoint find_yaml_files (root : string) (t : tree) : list string :=
  match t with
  | Dir dirs files =>
      map (path_join root) (filter is_yaml_name files)
      ++ flat_map (fun entry : string * tree =>
                     let (d, sub) := entry in
                     if keep_dir d then find_yaml_files (path_join root d) sub else [])
                  dirs
  end.

Fixpoint count_valid (results : list (bool * option text)) (valid_count invalid_count : Z)
  : Z * Z :=
  match results with
  | [] => (valid_count, invalid_count)
  | (is_valid, _) :: results' =>
      if is_valid : bool then count_valid results' (valid_count + 1) invalid_count
      else count_valid results' valid_count (invalid_count + 1)
  end.

(** The exit status of [main], from the directory tree. *)
Definition main (t : tree) (load : string -> result yaml) : Z :=
  match find_yaml_files "." t with
  | [] => 1
  | yaml_files =>
      let results := map (fun file_path => validate_yaml_file (load file_path))
                         (sorted yaml_files) in
      let (valid_count, invalid_count) := count_valid results 0 0 in
      if 0 <? invalid_count then 1 else 0
  end.

(** A file of the tree: the names of the directories down to it, and its
    name. *)
Inductive file_at : tree -> list string -> string -> Prop :=
| file_here dirs files f :
    In f files -> file_at (Dir dirs files) [] f
| file_below dirs files d sub path f :
    In (d, sub) dirs -> file_at sub path f -> file_at (Dir dirs files) (d :: path) f.

(** The path [os.walk] builds for it. *)
Definition path_of (root : string) (path : list string) (f : string) : string :=
  path_join (fold_left path_join path root) f.

End ValidateYaml.

(** ** validate-all.py *)

Module ValidateAll.

(** What [subprocess.run] does with a command: the process ends with a
    return code, or the call raises. *)
Inductive outcome : Type :=
| Exited (returncode : Z)
| RunFails (e : string).

Definition run_command (sh : string -> outcome) (command : string) : bool :=
  match sh command with
  | Exited returncode => returncode =? 0
  | RunFails _ => false
  end.

(** [total_count += 1] and, if the command succeeds, [success_count += 1];
    the pair is [(success_count, total_count)]. *)
Definition check (sh : string -> outcome) (command : string) (counts : Z * Z) : Z * Z :=
  let (success_count, total_count) := counts in
  let total_count := total_count + 1 in
  if run_command sh command then (success_count + 1, total_count)
  else (success_count, total_count).

(** [not os.environ.get('VIRTUAL_ENV')] *)
Definition no_virtual_env (virtual_env : option string) : bool :=
  match virtual_env with
  | Some s => String.eqb s ""
  | None => true
  end.

Definition run_checks (sh : string -> outcome) : Z * Z :=
  let counts := (0, 0) in
  let counts := check sh "python3 scripts/validate-yaml.py" counts in
  let counts := check sh "python3 scripts/validate-github-actions.py" counts in
  let counts := check sh "dotnet --version" counts in
  let counts := check sh "dotnet sln list" counts in
  let counts := check sh "docker --version" counts in
  let counts := check sh "docker-compose config" counts in
  let counts := check sh "ls -la src/ tests/ docs/" counts in
  counts.

(** The exit status of [main]: [activate_exists] is whether
    [.venv/bin/activate] exists. *)
Definition main (virtual_env : option string) (activate_exists : bool)
           (sh : string -> outcome) : Z :=
  if no_virtual_env virtual_env && negb activate_exists then 1
  else
    let (success_count, total_count) := run_checks sh in
    if success_count =? total_count then 0 else 1.

Definition commands : list string :=
  ["python3 scripts/validate-yaml.py";
   "python3 scripts/validate-github-actions.py";
   "dotnet --version";
   "dotnet sln list";
   "docker --version";
   "docker-compose config";
   "ls -la src/ tests/ docs/"].

End ValidateAll.

(** * Properties *)

(** ** Dictionaries *)

Lemma existsb_lookup (k : string) (m : list (scalar * yaml)) :
  existsb (fun kv => is_str k (fst kv)) m
  = match dict_lookup k m with Some _ => true | None => false end.
Proof.
  induction m as [|[k' v] m IH]; simpl; [reflexivity|].
  destruct (is_str k k'); simpl; [reflexivity | exact IH].
Qed.

Lemma is_str_true (k : string) (k' : scalar) : is_str k k' = true <-> k' = SStr k.
Proof.
  destruct k'; simpl; try (split; [discriminate | intros H; inversion H]).
  rewrite String.eqb_eq. split; intros H; [now subst | now inversion H].
Qed.

Lemma lookup_has_key (k : string) (m : list (scalar * yaml)) :
  has_key (SStr k) m <-> dict_lookup k m <> None.
Proof.
  unfold has_key. induction m as [|[k' v] m IH]; simpl.
  - split; [intros [] | intros H; now apply H].
  - destruct (is_str k k') eqn:E.
    + apply is_str_true in E. split; [discriminate | intros _; now left].
    + rewrite <- IH. split; [intros [H|H]; [|exact H] | intros H; now right].
      apply is_str_true in H. congruence.
Qed.

Lemma lookup_none (k : string) (m : list (scalar * yaml)) :
  ~ has_key (SStr k) m <-> dict_lookup k m = None.
Proof.
  rewrite lookup_has_key. destruct (dict_lookup k m); split; intros H.
  - exfalso. apply H. discriminate.
  - discriminate.
  - reflexivity.
  - intros C. now apply C.
Qed.

(** ** The integers [str()] refuses *)

Lemma int_str_limit_power : int_str_limit = 10 ^ 4300.
Proof. vm_compute. reflexivity. Qed.


Lemma py_str_raises (k : scalar) (e : exn) : py_str k = Raise e -> e = IntStrLimit.
Proof.
  destruct k as [|[]|z|s]; simpl; try discriminate.
  destruct (too_long z); [intros H; now inversion H | discriminate].
Qed.

Lemma py_str_renders (k : scalar) :
  scalar_renders k = true -> exists s, py_str k = Ok s.
Proof.
  destruct k as [|[]|z|s]; simpl; intros H; try (eexists; reflexivity).
  destruct (too_long z); [discriminate | eexists; reflexivity].
Qed.

(** ** The loop over the keys *)

Lemma is_on_key_raises (k : scalar) (e : exn) : is_on_key k = Raise e -> e = IntStrLimit.
Proof.
  unfold is_on_key. destruct (py_str k) as [s|e'] eqn:E; [discriminate|].
  intros H. inversion H; subst. now apply py_str_raises in E.
Qed.

Lemma is_on_key_renders (k : scalar) :
  scalar_renders k = true -> exists b, is_on_key k = Ok b.
Proof.
  intros H. destruct (py_str_renders k H) as [s E]. unfold is_on_key. rewrite E.
  eexists. reflexivity.
Qed.

Lemma has_on_field_raises (keys : list scalar) (e : exn) :
  has_on_field keys = Raise e -> e = IntStrLimit.
Proof.
  induction keys as [|k keys IH]; simpl; [discriminate|].
  destruct (is_on_key k) as [[]|e'] eqn:E; [discriminate | exact IH |].
  intros H. inversion H; subst. now apply is_on_key_raises in E.
Qed.


Lemma has_on_field_reached (pre post : list scalar) (k : scalar) :
  Forall (fun k' => scalar_renders k' = true) pre ->
  is_on_key k = Ok true ->
  has_on_field (pre ++ k :: post) = Ok true.
Proof.
  intros Hpre Hk. induction Hpre as [|k' pre Hk' _ IH]; simpl.
  - now rewrite Hk.
  - destruct (is_on_key_renders k' Hk') as [[] E]; rewrite E; [reflexivity | exact IH].
Qed.

Lemma has_on_field_renders (keys : list scalar) :
  Forall (fun k => scalar_renders k = true) keys -> exists b, has_on_field keys = Ok b.
Proof.
  induction 1 as [|k keys Hk _ [b IH]]; simpl; [now exists false|].
  destruct (is_on_key_renders k Hk) as [[] E]; rewrite E; [now exists true | now exists b].
Qed.

(** ** The monad *)

Section Writes.
Variable P : text -> Prop.

Lemma writes_ret {A} (a : A) : writes P (ret a).
Proof.
  intros s a' s' H. inversion H; subst. exists []. now rewrite app_nil_r.
Qed.

Lemma writes_lift {A} (r : result A) : writes P (lift r).
Proof.
  intros s a s' H. unfold lift in H. destruct r; inversion H; subst.
  exists []. now rewrite app_nil_r.
Qed.

Lemma writes_append (t : text) : P t -> writes P (append t).
Proof.
  intros Ht s a s' H. inversion H; subst. exists [t]. split; [reflexivity|].
  now constructor.
Qed.

Lemma writes_emit (t : text) : P t -> writes P (emit t).
Proof.
  intros Ht s a s' H. unfold emit, fstring in H.
  destruct (forallb piece_renders t); inversion H; subst.
  exists [t]. split; [reflexivity|]. now constructor.
Qed.

Lemma writes_bind {A B} (c : M A) (f : A -> M B) :
  writes P c -> (forall a, writes P (f a)) -> writes P (bind c f).
Proof.
  intros Hc Hf s b s' H. unfold bind in H.
  destruct (c s) as [[a s1]|e] eqn:E; [|discriminate].
  destruct (Hc _ _ _ E) as [d1 [-> F1]].
  destruct (Hf a _ _ _ H) as [d2 [-> F2]].
  exists (d1 ++ d2). rewrite app_assoc. split; [reflexivity|].
  apply Forall_app. now split.
Qed.

Lemma writes_when (b : bool) (c : M unit) : writes P c -> writes P (when b c).
Proof. destruct b; simpl; [trivial | intros _; apply writes_ret]. Qed.

Lemma writes_if {A} (b : bool) (c1 c2 : M A) :
  writes P c1 -> writes P c2 -> writes P (if b then c1 else c2).
Proof. now destruct b. Qed.

Lemma writes_for_each {A} (l : list A) (body : A -> M unit) :
  (forall x, writes P (body x)) -> writes P (for_each l body).
Proof.
  intros Hb. induction l as [|x l IH]; simpl.
  - apply writes_ret.
  - apply writes_bind; [apply Hb | intros _; exact IH].
Qed.

Lemma writes_for_enumerate {A} (l : list A) (body : Z -> A -> M unit) :
  (forall i x, writes P (body i x)) -> forall i, writes P (for_enumerate i l body).
Proof.
  intros Hb. induction l as [|x l IH]; intros i; simpl.
  - apply writes_ret.
  - apply writes_bind; [apply Hb | intros _; apply IH].
Qed.
End Writes.

(** Goes through the binds, conditionals and lifted operations of a
    computation and leaves what it appends, and its loops. *)
Ltac writes_steps :=
  repeat first [ apply writes_bind; [|intro] | apply writes_when | apply writes_if
               | apply writes_lift | apply writes_ret | apply writes_append
               | apply writes_emit ].

(** A loop over [l] appends one block of issues per element, in the order
    of [l]. *)
Lemma for_each_blocks {A} (Q : A -> list text -> Prop) (body : A -> M unit) :
  (forall x s s', body x s = Ok (tt, s') -> exists d, s' = s ++ d /\ Q x d) ->
  forall l s s', for_each l body s = Ok (tt, s') ->
  exists blocks, s' = s ++ List.concat blocks /\ Forall2 Q l blocks.
Proof.
  intros Hb. induction l as [|x l IH]; simpl; intros s s' H.
  - inversion H; subst. exists []. simpl. now rewrite app_nil_r.
  - unfold bind in H. destruct (body x s) as [[[] s1]|e] eqn:E; [|discriminate].
    destruct (Hb _ _ _ E) as [d [-> Hd]].
    destruct (IH _ _ H) as [blocks [-> Hbl]].
    exists (d :: blocks). simpl. rewrite app_assoc. split; [reflexivity|].
    now constructor.
Qed.

(** ** The validator on dictionaries *)

Lemma check_step_map (job_name : scalar) (i : Z) (st : list (scalar * yaml)) (s : list text) :
  check_step job_name i (YMap st) s
  = if step_renders job_name i (YMap st)
    then Ok (tt, s ++ step_issues job_name i (YMap st))
    else Raise IntStrLimit.
Proof.
  unfold check_step, bind, lift, when, py_in, py_get, py_get_method, format, py_str,
    append, ret, step_renders, step_issues, present, emit, fstring.
  rewrite !existsb_lookup.
  destruct (dict_lookup "name" st) as [x|], (dict_lookup "uses" st),
    (dict_lookup "run" st); cbn;
    destruct (scalar_renders job_name); cbn;
    try (destruct (too_long (i + 1)); cbn);
    try (destruct (renders x); cbn);
    rewrite ?app_nil_r, <- ?app_assoc; reflexivity.
Qed.

Lemma check_job_map (job_name : scalar) (j : list (scalar * yaml)) (s : list text) :
  check_job (job_name, YMap j) s
  = if present (dict_lookup "runs-on" j) || scalar_renders job_name then
      let s1 := if present (dict_lookup "runs-on" j) then s
                else s ++ [msg_job_runs_on job_name] in
      match dict_lookup "steps" j with
      | None => if scalar_renders job_name then Ok (tt, s1 ++ [msg_job_steps job_name])
                else Raise IntStrLimit
      | Some v => match py_iter v with
                  | Ok steps => for_enumerate 0 steps (check_step job_name) s1
                  | Raise e => Raise e
                  end
      end
    else Raise IntStrLimit.
Proof.
  unfold check_job, bind, lift, when, py_in, py_getitem, ret, present, emit, fstring.
  rewrite !existsb_lookup.
  destruct (dict_lookup "runs-on" j), (dict_lookup "steps" j) as [v|]; cbn;
    destruct (scalar_renders job_name); cbn; try reflexivity;
    destruct (py_iter v); reflexivity.
Qed.

Lemma check_workflow_map (m : list (scalar * yaml)) (s : list text) :
  check_workflow (YMap m) s
  = match has_on_field (map fst m) with
    | Raise e => Raise e
    | Ok has_on =>
        let s1 := if present (dict_lookup "name" m) then s
                  else s ++ [msg_missing_name] in
        let s2 := if has_on then s1 else s1 ++ [msg_missing_on] in
        match dict_lookup "jobs" m with
        | None => Ok (tt, s2 ++ [msg_missing_jobs])
        | Some (YMap jobs) => for_each jobs check_job s2
        | Some v => Raise (AttributeError (type_of v) "items")
        end
    end.
Proof.
  unfold check_workflow, bind, lift, when, py_in, py_keys, py_getitem, py_items,
    append, ret, present.
  rewrite !existsb_lookup.
  destruct (dict_lookup "name" m), (has_on_field (map fst m)) as [[]|e],
    (dict_lookup "jobs" m) as [[| |]|]; reflexivity.
Qed.

Lemma key_loop_raises (m : list (scalar * yaml)) (e : exn) :
  has_on_field (map fst m) = Raise e ->
  evaluate (YMap m) = (false, [msg_read_error IntStrLimit]).
Proof.
  intros H. unfold evaluate, validate_github_actions_workflow.
  rewrite check_workflow_map, H. apply has_on_field_raises in H. now subst.
Qed.

(** ** The root of the document *)

(** C4: the empty mapping gets the three Document-scope issues, in the
    order name, trigger, jobs, and is reported as parsed. *)
Theorem empty_mapping_three_issues :
  evaluate (YMap [])
  = (true, [[Lit "Missing 'name' field"];
            [Lit "Missing 'on' field (triggers)"];
            [Lit "Missing 'jobs' field"]]).
Proof. reflexivity. Qed.

(** C2, as the code has it: a root that is no mapping makes the code
    raise, and the handler returns an unparsed result with the one message
    "Error reading file: ..." of that exception: the [TypeError] of the
    first membership test when the root is [None], a boolean or a number,
    the [AttributeError] of [keys()] when it is a string or a list. *)
Theorem root_not_mapping_read_error (doc : yaml) :
  (forall m, doc <> YMap m) ->
  evaluate doc
  = (false, [msg_read_error
               match doc with
               | YScalar (SStr _) | YSeq _ => AttributeError (type_of doc) "keys"
               | _ => NotContainer (type_of doc)
               end]).
Proof.
  intros Hroot. unfold evaluate, validate_github_actions_workflow, check_workflow.
  destruct doc as [[| b | z | s] | l | m]; try reflexivity.
  - unfold bind, lift, when, py_in. destruct (occurs "name" s); reflexivity.
  - unfold bind, lift, when, py_in. destruct (existsb _ l); reflexivity.
  - now destruct (Hroot m).
Qed.

Lemma root_not_mapping_read_error_witness :
  evaluate (YSeq [str "name"]) = (false, [msg_read_error (AttributeError PyList "keys")]).
Proof. apply (root_not_mapping_read_error (YSeq [str "name"])). discriminate. Defined.

(** C2 as stated fails: a sequence at the root is answered with the read
    error, and "root must be a mapping" is not the issue returned. *)
Lemma root_not_mapping_counterexample :
  (forall m, YSeq [] <> YMap m)
  /\ evaluate (YSeq [])
     = (false, [[Lit "Error reading file: "; FmtExn (AttributeError PyList "keys")]])
  /\ snd (evaluate (YSeq [])) <> [[Lit "root must be a mapping"]].
Proof. repeat split; discriminate. Qed.

(** ** A [jobs] value that is no mapping *)

Lemma items_raises (m : list (scalar * yaml)) (v : yaml) :
  dict_lookup "jobs" m = Some v ->
  (forall jobs, v <> YMap jobs) ->
  evaluate (YMap m)
  = (false, [msg_read_error match has_on_field (map fst m) with
                            | Ok _ => AttributeError (type_of v) "items"
                            | Raise _ => IntStrLimit
                            end]).
Proof.
  intros Hjobs Hv. destruct (has_on_field (map fst m)) as [b|e] eqn:Hon.
  - unfold evaluate, validate_github_actions_workflow.
    rewrite check_workflow_map, Hon, Hjobs. cbv zeta.
    destruct v as [k | l | jobs]; [destruct k | | now destruct (Hv jobs)]; reflexivity.
  - exact (key_loop_raises m e Hon).
Qed.

(** C1, as the code has it: [items()] on a [jobs] value that is no dict
    raises, the issues gathered so far are dropped, and the result is the
    unparsed one with the message of that [AttributeError]; unless the
    loop over the keys has raised before, on an integer key of more than
    4300 digits, and the message is the one of that [ValueError]. *)
Theorem jobs_not_mapping_read_error (m : list (scalar * yaml)) (v : yaml) :
  dict_lookup "jobs" m = Some v ->
  (forall jobs, v <> YMap jobs) ->
  exists e,
    evaluate (YMap m) = (false, [msg_read_error e])
    /\ (((exists has_on, has_on_field (map fst m) = Ok has_on)
         /\ e = AttributeError (type_of v) "items")
        \/ (has_on_field (map fst m) = Raise IntStrLimit /\ e = IntStrLimit)).
Proof.
  intros Hjobs Hv. rewrite (items_raises m v Hjobs Hv).
  destruct (has_on_field (map fst m)) as [b|e] eqn:Hon.
  - eexists. split; [reflexivity|]. left. split; [now exists b | reflexivity].
  - eexists. split; [reflexivity|]. right. split; [|reflexivity].
    apply has_on_field_raises in Hon. now subst.
Qed.

Lemma jobs_not_mapping_read_error_witness :
  exists e,
    evaluate doc_jobs_list = (false, [msg_read_error e])
    /\ (((exists has_on,
            has_on_field [SStr "name"; SBool true; SStr "jobs"] = Ok has_on)
         /\ e = AttributeError PyList "items")
        \/ (has_on_field [SStr "name"; SBool true; SStr "jobs"] = Raise IntStrLimit
            /\ e = IntStrLimit)).
Proof.
  apply (jobs_not_mapping_read_error
           [(SStr "name", str "ci"); (SBool true, str "push");
            (SStr "jobs", YSeq [str "build"])]
           (YSeq [str "build"]));
    [reflexivity | discriminate].
Defined.

(** C1 as stated fails: with a sequence under [jobs] the result is not a
    parsed one. *)
Lemma jobs_not_mapping_counterexample :
  dict_lookup "jobs" [(SStr "name", str "ci"); (SBool true, str "push");
                      (SStr "jobs", YSeq [str "build"])]
  = Some (YSeq [str "build"])
  /\ fst (evaluate doc_jobs_list) <> true.
Proof. split; [reflexivity | discriminate]. Qed.

(** ** Documents without [jobs] *)

Lemma evaluate_no_jobs (m : list (scalar * yaml)) :
  dict_lookup "jobs" m = None ->
  evaluate (YMap m)
  = match has_on_field (map fst m) with
    | Ok has_on =>
        (true, (if present (dict_lookup "name" m) then [] else [msg_missing_name])
               ++ (if has_on then [] else [msg_missing_on])
               ++ [msg_missing_jobs])
    | Raise _ => (false, [msg_read_error IntStrLimit])
    end.
Proof.
  intros Hjobs. destruct (has_on_field (map fst m)) as [b|e] eqn:Hon.
  - unfold evaluate, validate_github_actions_workflow.
    rewrite check_workflow_map, Hon, Hjobs. cbv zeta.
    destruct (present _), b; reflexivity.
  - exact (key_loop_raises m e Hon).
Qed.

(** C5, as the code has it: without a [jobs] key, and when the loop over
    the keys ends, the issues are of Document scope only, "Missing 'jobs'
    field" comes once and last, and the issues for a missing name and a
    missing trigger come before it when those are missing too: one to
    three issues.  When the loop raises, on an integer key of more than
    4300 digits, the result is the unparsed one with that one message. *)
Theorem no_jobs_key_document_issues (m : list (scalar * yaml)) :
  ~ has_key (SStr "jobs") m ->
  (exists has_on,
     has_on_field (map fst m) = Ok has_on
     /\ evaluate (YMap m)
        = (true, (if present (dict_lookup "name" m) then [] else [msg_missing_name])
                 ++ (if has_on then [] else [msg_missing_on])
                 ++ [msg_missing_jobs])
     /\ Forall (fun t => scope_of t = Some Document) (snd (evaluate (YMap m)))
     /\ (1 <= List.length (snd (evaluate (YMap m))) <= 3)%nat)
  \/ (has_on_field (map fst m) = Raise IntStrLimit
      /\ evaluate (YMap m) = (false, [msg_read_error IntStrLimit])).
Proof.
  intros Hjobs. apply lookup_none in Hjobs.
  rewrite (evaluate_no_jobs m Hjobs).
  destruct (has_on_field (map fst m)) as [b|e] eqn:Hon.
  - left. exists b. split; [reflexivity|]. split; [reflexivity|].
    destruct (present _), b; simpl; (split; [repeat constructor | lia]).
  - right. split; [|reflexivity]. apply has_on_field_raises in Hon. now subst.
Qed.

Lemma no_jobs_key_document_issues_witness :
  (exists has_on,
     has_on_field [SStr "on"] = Ok has_on
     /\ evaluate (YMap [(SStr "on", str "push")])
        = (true, [msg_missing_name] ++ (if has_on then [] else [msg_missing_on])
                 ++ [msg_missing_jobs])
     /\ Forall (fun t => scope_of t = Some Document)
          (snd (evaluate (YMap [(SStr "on", str "push")])))
     /\ (1 <= List.length (snd (evaluate (YMap [(SStr "on", str "push")]))) <= 3)%nat)
  \/ (has_on_field [SStr "on"] = Raise IntStrLimit
      /\ evaluate (YMap [(SStr "on", str "push")]) = (false, [msg_read_error IntStrLimit])).
Proof.
  apply (no_jobs_key_document_issues [(SStr "on", str "push")]).
  unfold has_key. simpl. intros [H|[]]. discriminate.
Defined.

(** C5 as stated fails: the empty mapping has no [jobs] key and gets three
    Document-scope issues, not one. *)
Lemma no_jobs_key_counterexample :
  ~ has_key (SStr "jobs") []
  /\ List.length (filter is_document_scope (snd (evaluate (YMap [])))) = 3%nat
  /\ List.length (filter is_document_scope (snd (evaluate (YMap [])))) <> 1%nat.
Proof. split; [intros [] | split; [reflexivity | discriminate]]. Qed.

(** ** The exit status *)

Lemma is_clean_iff (r : bool * list text) : is_clean r = true <-> clean r.
Proof.
  unfold is_clean, clean. destruct r as [[] [|t l]]; simpl;
    split; try tauto; try discriminate; intros [H1 H2]; discriminate.
Qed.

Lemma count_results_invalid (results : list (bool * list text)) (v i : Z) :
  0 <= i ->
  i <= snd (count_results results v i)
  /\ (snd (count_results results v i) = i <-> Forall clean results).
Proof.
  revert v i. induction results as [|r results IH]; intros v i Hi; simpl.
  - split; [lia|]. split; [constructor | reflexivity].
  - destruct (is_clean r) eqn:E.
    + destruct (IH (v + 1) i Hi) as [H1 H2]. split; [exact H1|].
      rewrite H2. apply is_clean_iff in E. split.
      * now constructor.
      * intros F. now inversion F.
    + destruct (IH v (i + 1) ltac:(lia)) as [H1 H2]. split; [lia|]. split.
      * lia.
      * intros F. inversion F as [|? ? C]; subst. apply is_clean_iff in C. congruence.
Qed.

(** C8: the exit status is 0 exactly when there is at least one result and
    every result is parsed and without issues; it is 1 in every other case,
    no file found included. *)
Theorem main_exit_status (results : list (bool * list text)) :
  (main results = 0 <-> results <> [] /\ Forall clean results)
  /\ (main results = 1 <-> ~ (results <> [] /\ Forall clean results))
  /\ main [] = 1.
Proof.
  assert (H : (main results = 0 <-> results <> [] /\ Forall clean results)
              /\ (main results = 0 \/ main results = 1)).
  { unfold main. destruct results as [|r results].
    - split; [|now right]. split; [discriminate | intros [C _]; now destruct C].
    - destruct (count_results (r :: results) 0 0) as [v i] eqn:E.
      pose proof (count_results_invalid (r :: results) 0 0 ltac:(lia)) as [H1 H2].
      rewrite E in H1, H2. simpl in H1, H2.
      destruct (0 <? i) eqn:L.
      + apply Z.ltb_lt in L. split; [|now right]. split; [discriminate|].
        intros [_ F]. apply H2 in F. lia.
      + apply Z.ltb_ge in L. split; [|now left]. split; [|reflexivity].
        intros _. split; [discriminate|]. apply H2. lia. }
  destruct H as [H0 H01]. split; [exact H0|]. split; [|reflexivity].
  rewrite <- H0. destruct H01 as [H|H]; rewrite H; split; intros C;
    try discriminate; try reflexivity; now destruct C.
Qed.

(** ** Valid documents *)

Lemma has_key_present (k : string) (m : list (scalar * yaml)) :
  has_key (SStr k) m -> present (dict_lookup k m) = true.
Proof.
  intros H. apply lookup_has_key in H. now destruct (dict_lookup k m).
Qed.

Lemma valid_step_quiet (job_name : scalar) (i : Z) (step : yaml) :
  valid_step step ->
  step_renders job_name i step = true /\ step_issues job_name i step = [].
Proof.
  intros [st [-> [Hname Hact]]]. unfold step_renders, step_issues.
  rewrite (has_key_present _ _ Hname).
  destruct Hact as [H|H]; rewrite (has_key_present _ _ H);
    rewrite ?orb_true_r; split; reflexivity.
Qed.

Lemma valid_steps_silent (job_name : scalar) (steps : list yaml) :
  Forall valid_step steps ->
  forall i s, for_enumerate i steps (check_step job_name) s = Ok (tt, s).
Proof.
  induction 1 as [|step steps Hstep _ IH]; intros i s; simpl; [reflexivity|].
  destruct (valid_step_quiet job_name i step Hstep) as [Hr Hi].
  destruct Hstep as [st [-> _]].
  unfold bind. rewrite check_step_map, Hr, Hi, app_nil_r. apply IH.
Qed.

Lemma complete_job_silent (job_name : scalar) (job_config : yaml) (s : list text) :
  complete_job job_config -> check_job (job_name, job_config) s = Ok (tt, s).
Proof.
  intros [j [steps [-> [Hruns [Hsteps Hall]]]]].
  rewrite check_job_map, Hsteps, (has_key_present _ _ Hruns). simpl.
  now apply valid_steps_silent.
Qed.

Lemma complete_jobs_silent (jobs : list (scalar * yaml)) :
  Forall (fun job => complete_job (snd job)) jobs ->
  forall s, for_each jobs check_job s = Ok (tt, s).
Proof.
  induction 1 as [|[job_name job_config] jobs Hjob _ IH]; intros s;
    cbn [for_each]; [reflexivity|].
  unfold bind. rewrite (complete_job_silent job_name job_config s Hjob). apply IH.
Qed.

Lemma valid_job_complete (job_config : yaml) : valid_job job_config -> complete_job job_config.
Proof.
  intros [j [steps [E [Hruns [Hsteps [_ Hall]]]]]]. exists j, steps. now repeat split.
Qed.

(** C3, as the code has it: a document with a name, a trigger key in
    either form, and jobs that each run somewhere and have steps that each
    have a name and an action, is parsed and gets no issue, provided the
    loop over the keys reaches a trigger key: no key before it is an
    integer of more than 4300 digits. *)
Theorem valid_document_no_issues (m : list (scalar * yaml)) :
  valid_document (YMap m) -> trigger_reached m -> evaluate (YMap m) = (true, []).
Proof.
  intros [m' [jobs [E [Hname [_ [Hjobs [_ Hall]]]]]]] [pre [k [v [post [-> [Hk Hpre]]]]]].
  inversion E; subst m'.
  assert (Hon : has_on_field (map fst (pre ++ (k, v) :: post)) = Ok true).
  { rewrite map_app. cbn [map fst]. apply has_on_field_reached.
    - rewrite Forall_map. exact Hpre.
    - destruct Hk as [->| ->]; reflexivity. }
  unfold evaluate, validate_github_actions_workflow.
  rewrite check_workflow_map, Hon, Hjobs, (has_key_present _ _ Hname). cbv zeta.
  rewrite complete_jobs_silent; [reflexivity|].
  revert Hall. apply Forall_impl. intros job. apply valid_job_complete.
Qed.

Lemma valid_document_no_issues_witness : evaluate doc_minimal = (true, []).
Proof.
  apply (valid_document_no_issues
           [(SStr "name", str "ci"); (SBool true, str "push");
            (SStr "jobs",
             YMap [(SStr "build",
                    YMap [(SStr "runs-on", str "ubuntu-latest");
                          (SStr "steps",
                           YSeq [YMap [(SStr "name", str "checkout");
                                       (SStr "uses", str "actions/checkout@v4")]])])])]).
  - unfold valid_document, valid_job, valid_step, has_key.
    eexists. eexists. split; [reflexivity|]. simpl.
    split; [now left|]. split; [right; right; now left|].
    split; [reflexivity|]. split; [discriminate|].
    constructor; [|constructor]. simpl.
    eexists. eexists. split; [reflexivity|]. simpl.
    split; [now left|]. split; [reflexivity|]. split; [discriminate|].
    constructor; [|constructor].
    eexists. split; [reflexivity|]. simpl. split; [now left|].
    left. right. now left.
  - exists [(SStr "name", str "ci")], (SBool true), (str "push"). eexists.
    split; [reflexivity|]. split; [now right|]. repeat constructor.
Defined.

(** C3 as stated fails: this document has the name, the trigger key, and
    a job with [runs-on] and a step with a name and an action, and an
    integer key of 4301 digits before them; [str()] of that key raises in
    the loop over the keys and the result is the unparsed one, with one
    message. *)
Lemma valid_document_counterexample :
  valid_document doc_long_key
  /\ evaluate doc_long_key = (false, [msg_read_error IntStrLimit])
  /\ evaluate doc_long_key <> (true, []).
Proof.
  split; [|split; [reflexivity | discriminate]].
  unfold doc_long_key, valid_document, valid_job, valid_step, has_key.
  eexists. eexists. split; [reflexivity|]. cbn [map fst].
  split; [right; now left|]. split; [right; right; right; now left|].
  split; [reflexivity|]. split; [discriminate|].
  constructor; [|constructor]. cbn [snd].
  eexists. eexists. split; [reflexivity|]. cbn [map fst].
  split; [now left|]. split; [reflexivity|]. split; [discriminate|].
  constructor; [|constructor].
  eexists. split; [reflexivity|]. cbn [map fst]. split; [now left|].
  left. right. now left.
Qed.

(** ** The trigger key *)

Lemma check_step_writes (job_name : scalar) (i : Z) (step : yaml) :
  writes (of_job job_name) (check_step job_name i step).
Proof.
  unfold check_step. writes_steps; (split; [reflexivity | now right]).
Qed.

Lemma check_job_writes (job : scalar * yaml) :
  writes (of_job (fst job)) (check_job job).
Proof.
  destruct job as [job_name job_config]. unfold check_job. simpl fst.
  writes_steps;
    try (apply writes_for_enumerate; intros; apply check_step_writes);
    (split; [reflexivity | now left]).
Qed.

Lemma error_result_shape (o : result (unit * list text)) :
  (exists s, o = Ok (tt, s))
  \/ (exists e t, o = Raise e /\ scope_of t = None
                  /\ match o with
                     | Ok (_, issues) => (true, issues)
                     | Raise (YAMLError msg) => (false, [msg_yaml_error (YAMLError msg)])
                     | Raise e => (false, [msg_read_error e])
                     end = (false, [t])).
Proof.
  destruct o as [[[] s]|e]; [left; now exists s|].
  right. exists e.
  destruct e; eexists; (split; [reflexivity|]); (split; [|reflexivity]); reflexivity.
Qed.

(** The issues of a mapping with jobs: the Document-scope ones, then one
    block per job in the order of the jobs; or the one message of an
    exception. *)
Lemma evaluate_jobs_blocks (Q : scalar * yaml -> list text -> Prop)
      (m jobs : list (scalar * yaml)) :
  dict_lookup "jobs" m = Some (YMap jobs) ->
  (forall job s s', check_job job s = Ok (tt, s') -> exists d, s' = s ++ d /\ Q job d) ->
  (exists t, evaluate (YMap m) = (false, [t]) /\ scope_of t = None)
  \/ (exists has_on blocks,
        has_on_field (map fst m) = Ok has_on
        /\ evaluate (YMap m)
           = (true, (if present (dict_lookup "name" m) then [] else [msg_missing_name])
                    ++ (if has_on then [] else [msg_missing_on])
                    ++ List.concat blocks)
        /\ Forall2 Q jobs blocks).
Proof.
  intros Hjobs HQ. destruct (has_on_field (map fst m)) as [b|e0] eqn:Hon.
  - unfold evaluate, validate_github_actions_workflow.
    rewrite check_workflow_map, Hon, Hjobs. cbv zeta.
    match goal with |- context [for_each jobs check_job ?s] => set (s2 := s) end.
    destruct (error_result_shape (for_each jobs check_job s2))
      as [[s' E]|[e [t [E [Ht Hr]]]]].
    + right. destruct (for_each_blocks Q check_job HQ _ _ _ E) as [blocks [-> F]].
      exists b, blocks. rewrite E. split; [reflexivity|]. split; [|exact F]. subst s2.
      destruct (present _), b; reflexivity.
    + left. exists t. split; [exact Hr | exact Ht].
  - left. rewrite (key_loop_raises m e0 Hon). eexists. split; reflexivity.
Qed.

Lemma Forall2_In_r {A B} (Q : A -> B -> Prop) (l : list A) (l' : list B) (y : B) :
  Forall2 Q l l' -> In y l' -> exists x, In x l /\ Q x y.
Proof.
  induction 1 as [|x y' l l' Hxy _ IH]; intros Hin; [destruct Hin|].
  destruct Hin as [<-|Hin].
  - exists x. split; [now left | exact Hxy].
  - destruct (IH Hin) as [x' [H1 H2]]. exists x'. split; [now right | exact H2].
Qed.








(** ** The order of the issues *)

(** C7: in a mapping whose [jobs] is a mapping, the issues are the
    Document-scope ones followed by one block per job, the blocks in the
    order the jobs are declared and each block holding Job- and Step-scope
    issues of its own job only; unless an exception ended the run, which
    leaves its one message, of no scope. *)
Theorem issues_in_declaration_order (m jobs : list (scalar * yaml)) :
  dict_lookup "jobs" m = Some (YMap jobs) ->
  (exists t, evaluate (YMap m) = (false, [t]) /\ scope_of t = None)
  \/ (exists document_issues blocks,
        evaluate (YMap m) = (true, document_issues ++ List.concat blocks)
        /\ Forall (fun t => scope_of t = Some Document) document_issues
        /\ Forall2 (fun job block => Forall (of_job (fst job)) block) jobs blocks).
Proof.
  intros Hjobs.
  destruct (evaluate_jobs_blocks (fun job d => Forall (of_job (fst job)) d) m jobs Hjobs)
    as [H|[b [blocks [Hb [E F]]]]].
  - intros job s s' H. exact (check_job_writes job s tt s' H).
  - now left.
  - right.
    exists ((if present (dict_lookup "name" m) then [] else [msg_missing_name])
            ++ (if b then [] else [msg_missing_on])), blocks.
    split; [now rewrite <- app_assoc|]. split; [|exact F].
    destruct (present _), b; repeat constructor.
Qed.

Lemma issues_in_declaration_order_witness :
  (exists t, evaluate doc_b_then_a = (false, [t]) /\ scope_of t = None)
  \/ (exists document_issues blocks,
        evaluate doc_b_then_a = (true, document_issues ++ List.concat blocks)
        /\ Forall (fun t => scope_of t = Some Document) document_issues
        /\ Forall2 (fun job block => Forall (of_job (fst job)) block)
             [(SStr "B", YMap [(SStr "steps", YSeq [YMap [(SStr "run", str "make")]])]);
              (SStr "A", YMap [(SStr "runs-on", str "ubuntu-latest")])]
             blocks).
Proof.
  apply (issues_in_declaration_order
           [(SStr "name", str "ci"); (SStr "on", str "push");
            (SStr "jobs",
             YMap [(SStr "B", YMap [(SStr "steps", YSeq [YMap [(SStr "run", str "make")]])]);
                   (SStr "A", YMap [(SStr "runs-on", str "ubuntu-latest")])])]).
  reflexivity.
Defined.

(** Jobs declared as [B] then [A]: the issues of [B] come first. *)
Example b_before_a :
  evaluate doc_b_then_a
  = (true, [msg_job_runs_on (SStr "B");
            msg_step_name (SStr "B") 0;
            msg_job_steps (SStr "A")]).
Proof. reflexivity. Qed.

(** The [jobs: {build: {steps: [{uses: checkout}]}}] scenario of the
    specification. *)
Example scenario_issues :
  evaluate doc_scenario
  = (true, [[Lit "Missing 'name' field"];
            [Lit "Missing 'on' field (triggers)"];
            [Lit "Job '"; Fmt (str "build"); Lit "' missing 'runs-on' field"];
            [Lit "Job '"; Fmt (str "build"); Lit "' step "; Fmt (YScalar (SInt 1));
             Lit " missing 'name' field"]]).
Proof. reflexivity. Qed.

(** ** Jobs without steps *)

Lemma check_job_empty_steps (job_name : scalar) (j : list (scalar * yaml))
      (s : list text) :
  dict_lookup "steps" j = Some (YSeq []) ->
  check_job (job_name, YMap j) s
  = if present (dict_lookup "runs-on" j) || scalar_renders job_name
    then Ok (tt, s ++ (if present (dict_lookup "runs-on" j) then []
                       else [msg_job_runs_on job_name]))
    else Raise IntStrLimit.
Proof.
  intros Hsteps. rewrite check_job_map, Hsteps. simpl.
  destruct (present _); simpl; [now rewrite app_nil_r | reflexivity].
Qed.

Lemma unique_key_value {A B} (l : list (A * B)) (a : A) (b b' : B) :
  NoDup (map fst l) -> In (a, b) l -> In (a, b') l -> b = b'.
Proof.
  induction l as [|[a0 b0] l IH]; simpl; intros Hnd H1 H2; [destruct H1|].
  inversion Hnd as [|? ? Hnotin Hnd']; subst.
  destruct H1 as [H1|H1], H2 as [H2|H2].
  - congruence.
  - inversion H1; subst. exfalso. apply Hnotin.
    change a with (fst (a, b')). now apply in_map.
  - inversion H2; subst. exfalso. apply Hnotin.
    change a with (fst (a, b)). now apply in_map.
  - now apply IH.
Qed.

Lemma check_job_block (job : scalar * yaml) (s s' : list text) :
  check_job job s = Ok (tt, s') -> exists d, s' = s ++ d /\ job_block job d.
Proof.
  intros H. destruct (check_job_writes job s tt s' H) as [d [-> Hd]].
  exists d. split; [reflexivity|]. split; [exact Hd|].
  destruct job as [job_name job_config]. simpl. intros j -> Hsteps t Hin.
  rewrite (check_job_empty_steps _ _ _ Hsteps) in H.
  destruct (present (dict_lookup "runs-on" j) || scalar_renders job_name);
    [|discriminate].
  inversion H as [E]. apply app_inv_head in E. subst d.
  destruct (dict_lookup "runs-on" j) eqn:R; simpl in Hin; [destruct Hin|].
  destruct Hin as [<-|[]]. split; [reflexivity|]. now apply lookup_none.
Qed.

(** C10: a job whose [steps] is the empty list gets no Step-scope issue
    and no issue about [steps]: the only issue that names it is the one for
    a missing [runs-on]. *)
Theorem empty_steps_pass_silently (m jobs j : list (scalar * yaml))
        (job_name : scalar) (t : text) :
  dict_lookup "jobs" m = Some (YMap jobs) ->
  NoDup (map fst jobs) ->
  In (job_name, YMap j) jobs ->
  dict_lookup "steps" j = Some (YSeq []) ->
  In t (snd (evaluate (YMap m))) ->
  job_of t = Some job_name ->
  scope_of t <> Some Step
  /\ t <> msg_job_steps job_name
  /\ t = msg_job_runs_on job_name
  /\ ~ has_key (SStr "runs-on") j.
Proof.
  intros Hjobs Hnd Hjob Hsteps Hin Hname.
  assert (H : t = msg_job_runs_on job_name /\ ~ has_key (SStr "runs-on") j).
  { destruct (evaluate_jobs_blocks job_block m jobs Hjobs check_job_block)
      as [[t' [E Ht']]|[b [blocks [Hb [E F]]]]]; rewrite E in Hin; cbn [snd] in Hin.
    - destruct Hin as [->|[]]. unfold job_of in Hname. rewrite Ht' in Hname.
      discriminate.
    - apply in_app_or in Hin. destruct Hin as [Hin|Hin].
      { destruct (present _); [destruct Hin | destruct Hin as [<-|[]]; discriminate]. }
      apply in_app_or in Hin. destruct Hin as [Hin|Hin].
      { destruct b; [destruct Hin | destruct Hin as [<-|[]]; discriminate]. }
      apply in_concat in Hin. destruct Hin as [blk [Hblk Hin]].
      destruct (Forall2_In_r _ _ _ _ F Hblk) as [[n c] [Hjob' [Hof Hempty]]].
      rewrite Forall_forall in Hof. destruct (Hof _ Hin) as [Hn _].
      simpl in Hn. assert (n = job_name) by congruence. subst n.
      assert (c = YMap j) by exact (unique_key_value _ _ _ _ Hnd Hjob' Hjob).
      subst c. exact (Hempty j eq_refl Hsteps t Hin). }
  destruct H as [-> Hruns]. repeat split; try discriminate; exact Hruns.
Qed.

Lemma empty_steps_pass_silently_witness :
  evaluate doc_no_steps = (true, [msg_job_runs_on (SStr "build")])
  /\ scope_of (msg_job_runs_on (SStr "build")) <> Some Step
  /\ msg_job_runs_on (SStr "build") <> msg_job_steps (SStr "build")
  /\ msg_job_runs_on (SStr "build") = msg_job_runs_on (SStr "build")
  /\ ~ has_key (SStr "runs-on") [(SStr "steps", YSeq [])].
Proof.
  split; [reflexivity|].
  apply (empty_steps_pass_silently
           [(SStr "name", str "ci"); (SStr "on", str "push");
            (SStr "jobs", YMap [(SStr "build", YMap [(SStr "steps", YSeq [])])])]
           [(SStr "build", YMap [(SStr "steps", YSeq [])])]
           [(SStr "steps", YSeq [])] (SStr "build") (msg_job_runs_on (SStr "build"))).
  - reflexivity.
  - simpl. constructor; [intros [] | constructor].
  - simpl. now left.
  - reflexivity.
  - simpl. now left.
  - reflexivity.
Defined.

(** * Further properties of the scripts *)

(** ** What a result holds *)

Lemma writes_weaken {A} (P Q : text -> Prop) (c : M A) :
  (forall t, P t -> Q t) -> writes P c -> writes Q c.
Proof.
  intros HPQ Hc s a s' H. destruct (Hc s a s' H) as [d [-> Hd]].
  exists d. split; [reflexivity|]. revert Hd. apply Forall_impl. exact HPQ.
Qed.

Lemma check_workflow_writes (workflow : yaml) :
  writes (fun t => scope_of t <> None) (check_workflow workflow).
Proof.
  unfold check_workflow. writes_steps; try discriminate.
  apply writes_for_each. intros job.
  apply writes_weaken with (P := of_job (fst job)); [|apply check_job_writes].
  intros t [_ [H|H]]; rewrite H; discriminate.
Qed.

(** A parsed result holds issues of Document, Job or Step scope only; a
    result that is not parsed holds one message, of none of these scopes. *)
Theorem result_parsed_or_one_message (loaded : result yaml) :
  (fst (validate_github_actions_workflow loaded) = true
   /\ Forall (fun t => scope_of t <> None)
        (snd (validate_github_actions_workflow loaded)))
  \/ (fst (validate_github_actions_workflow loaded) = false
      /\ exists t, snd (validate_github_actions_workflow loaded) = [t]
                   /\ scope_of t = None).
Proof.
  unfold validate_github_actions_workflow.
  destruct loaded as [workflow|e].
  - destruct (check_workflow workflow []) as [[[] issues]|e] eqn:E.
    + left. split; [reflexivity|].
      destruct (check_workflow_writes workflow _ _ _ E) as [d [-> Hd]]. exact Hd.
    + right. split; [now destruct e|]. destruct e; eexists; split; reflexivity.
  - right. split; [now destruct e|]. destruct e; eexists; split; reflexivity.
Qed.

(** ** The exceptions of the rule engine *)

Section Raises.
Variable E : exn -> Prop.









End Raises.


















(** ** Documents of the expected shapes *)

Lemma steps_run (job_name : scalar) (steps : list yaml) :
  forallb is_mapping steps = true ->
  forall i s, for_enumerate i steps (check_step job_name) s
              = if steps_render job_name i steps
                then Ok (tt, s ++ steps_issues job_name i steps)
                else Raise IntStrLimit.
Proof.
  induction steps as [|step steps IH]; intros Hall i s;
    cbn [for_enumerate steps_issues steps_render].
  - unfold ret. now rewrite app_nil_r.
  - cbn [forallb] in Hall. apply andb_prop in Hall. destruct Hall as [Hstep Hall].
    destruct step as [k|l|st]; try discriminate.
    unfold bind. rewrite check_step_map.
    destruct (step_renders job_name i (YMap st)); [|reflexivity].
    rewrite (IH Hall). cbn [andb].
    destruct (steps_render job_name (i + 1) steps); [|reflexivity].
    now rewrite <- app_assoc.
Qed.

Lemma job_runs (job_name : scalar) (job_config : yaml) (s : list text) :
  well_shaped_job job_config = true ->
  check_job (job_name, job_config) s
  = if job_renders (job_name, job_config)
    then Ok (tt, s ++ job_issues (job_name, job_config))
    else Raise IntStrLimit.
Proof.
  intros Hjob. destruct job_config as [k|l|j]; try discriminate.
  rewrite check_job_map. unfold job_issues, job_renders. cbn [fst snd]. cbv zeta.
  unfold well_shaped_job in Hjob.
  destruct (dict_lookup "steps" j) as [[k|steps|m]|]; try discriminate.
  - cbn [py_iter]. rewrite (steps_run _ _ Hjob).
    destruct (present _), (scalar_renders job_name), (steps_render job_name 0 steps);
      cbn; rewrite <- ?app_assoc; reflexivity.
  - destruct (present _), (scalar_renders job_name); cbn;
      rewrite <- ?app_assoc; reflexivity.
Qed.

Lemma jobs_run (jobs : list (scalar * yaml)) :
  forallb (fun job => well_shaped_job (snd job)) jobs = true ->
  forall s, for_each jobs check_job s
            = if forallb job_renders jobs
              then Ok (tt, s ++ flat_map job_issues jobs)
              else Raise IntStrLimit.
Proof.
  induction jobs as [|[job_name job_config] jobs IH]; intros Hall s;
    cbn [for_each flat_map forallb].
  - unfold ret. now rewrite app_nil_r.
  - cbn [forallb snd] in Hall. apply andb_prop in Hall. destruct Hall as [Hjob Hall].
    unfold bind. rewrite (job_runs job_name job_config s Hjob).
    destruct (job_renders (job_name, job_config)); [|reflexivity].
    rewrite (IH Hall). cbn [andb].
    destruct (forallb job_renders jobs); [|reflexivity].
    now rewrite <- app_assoc.
Qed.

Lemma document_runs (doc : yaml) :
  well_shaped doc = true ->
  evaluate doc = if document_renders doc then (true, document_issues doc)
                 else (false, [msg_read_error IntStrLimit]).
Proof.
  intros Hdoc. destruct doc as [k|l|m]; try discriminate.
  unfold document_issues, document_renders.
  destruct (has_on_field (map fst m)) as [b|e] eqn:Hon;
    [|exact (key_loop_raises m e Hon)].
  unfold evaluate, validate_github_actions_workflow.
  rewrite check_workflow_map, Hon. cbv zeta. unfold well_shaped in Hdoc.
  destruct (dict_lookup "jobs" m) as [[k|l|jobs]|]; try discriminate.
  - rewrite (jobs_run _ Hdoc).
    destruct (forallb job_renders jobs); [|reflexivity].
    destruct (present _), b; reflexivity.
  - destruct (present _), b; reflexivity.
Qed.

Lemma renders_entry (m : list (scalar * yaml)) (k : scalar) (v : yaml) :
  renders (YMap m) = true -> In (k, v) m ->
  scalar_renders k = true /\ renders v = true.
Proof.
  cbn [renders]. rewrite forallb_forall. intros H Hin.
  specialize (H _ Hin). cbn in H. now apply andb_prop in H.
Qed.

Lemma renders_keys (m : list (scalar * yaml)) :
  renders (YMap m) = true -> Forall (fun k => scalar_renders k = true) (map fst m).
Proof.
  intros H. rewrite Forall_map, Forall_forall. intros [k v] Hin.
  now destruct (renders_entry m k v H Hin).
Qed.

Lemma lookup_in (k : string) (m : list (scalar * yaml)) (v : yaml) :
  dict_lookup k m = Some v -> In (SStr k, v) m.
Proof.
  induction m as [|[k' v'] m IH]; simpl; [discriminate|].
  destruct (is_str k k') eqn:E.
  - intros H. inversion H; subst. apply is_str_true in E. subst. now left.
  - intros H. right. now apply IH.
Qed.

Lemma renders_lookup (m : list (scalar * yaml)) (k : string) (v : yaml) :
  renders (YMap m) = true -> dict_lookup k m = Some v -> renders v = true.
Proof.
  intros H Hk. apply lookup_in in Hk. now destruct (renders_entry m _ v H Hk).
Qed.







Lemma present_has_key (k : string) (m : list (scalar * yaml)) :
  present (dict_lookup k m) = true <-> has_key (SStr k) m.
Proof.
  rewrite lookup_has_key. destruct (dict_lookup k m); simpl; split; intros H;
    try reflexivity; try discriminate. now destruct H.
Qed.

Lemma step_issues_nil (job_name : scalar) (i : Z) (st : list (scalar * yaml)) :
  step_issues job_name i (YMap st) = [] <-> valid_step (YMap st).
Proof.
  unfold step_issues, valid_step. split.
  - intros H. apply app_eq_nil in H. destruct H as [H1 H2].
    exists st. split; [reflexivity|].
    destruct (present (dict_lookup "name" st)) eqn:N; [|discriminate].
    split; [now apply present_has_key|].
    destruct (present (dict_lookup "uses" st)) eqn:U.
    + left. now apply present_has_key.
    + destruct (present (dict_lookup "run" st)) eqn:R; [|discriminate].
      right. now apply present_has_key.
  - intros [st' [E [Hname Hact]]]. inversion E; subst st'.
    apply present_has_key in Hname. rewrite Hname.
    destruct Hact as [H|H]; apply present_has_key in H; rewrite H;
      rewrite ?orb_true_r; reflexivity.
Qed.

Lemma steps_issues_nil (job_name : scalar) (steps : list yaml) :
  forallb is_mapping steps = true ->
  forall i, steps_issues job_name i steps = [] <-> Forall valid_step steps.
Proof.
  induction steps as [|step steps IH]; intros Hall i; cbn [steps_issues].
  - split; [constructor | reflexivity].
  - cbn [forallb] in Hall. apply andb_prop in Hall. destruct Hall as [Hstep Hall].
    destruct step as [k|l|st]; try discriminate. split.
    + intros H. apply app_eq_nil in H. destruct H as [H1 H2]. constructor.
      * now apply step_issues_nil in H1.
      * now apply (IH Hall (i + 1)).
    + intros H. inversion H as [|? ? H1 H2]; subst.
      apply (step_issues_nil job_name i) in H1. rewrite H1.
      now apply (IH Hall (i + 1)).
Qed.

Lemma job_issues_nil (job : scalar * yaml) :
  well_shaped_job (snd job) = true ->
  job_issues job = [] <-> complete_job (snd job).
Proof.
  destruct job as [job_name job_config]. cbn [snd]. intros Hjob.
  destruct job_config as [k|l|j]; try discriminate.
  unfold job_issues, complete_job. cbn [fst snd]. unfold well_shaped_job in Hjob.
  destruct (dict_lookup "steps" j) as [[k|steps|m]|] eqn:S; try discriminate.
  - split.
    + intros H. apply app_eq_nil in H. destruct H as [H1 H2].
      exists j, steps. split; [reflexivity|].
      destruct (present (dict_lookup "runs-on" j)) eqn:R; [|discriminate].
      split; [now apply present_has_key|]. split; [exact S|].
      now apply (steps_issues_nil job_name steps Hjob 0).
    + intros [j' [steps' [E [Hruns [Hs Hall]]]]]. inversion E; subst j'.
      rewrite S in Hs. inversion Hs; subst steps'.
      apply present_has_key in Hruns. rewrite Hruns.
      now apply (steps_issues_nil job_name steps Hjob 0).
  - split.
    + intros H. apply app_eq_nil in H. destruct H as [_ H]. discriminate.
    + intros [j' [steps' [E [_ [Hs _]]]]]. inversion E; subst j'.
      rewrite S in Hs. discriminate.
Qed.

Lemma jobs_issues_nil (jobs : list (scalar * yaml)) :
  forallb (fun job => well_shaped_job (snd job)) jobs = true ->
  flat_map job_issues jobs = [] <-> Forall (fun job => complete_job (snd job)) jobs.
Proof.
  induction jobs as [|job jobs IH]; intros Hall; cbn [flat_map].
  - split; [constructor | reflexivity].
  - cbn [forallb] in Hall. apply andb_prop in Hall. destruct Hall as [Hjob Hall].
    split.
    + intros H. apply app_eq_nil in H. destruct H as [H1 H2]. constructor.
      * now apply job_issues_nil.
      * now apply IH.
    + intros H. inversion H as [|? ? H1 H2]; subst.
      apply job_issues_nil in H1; [|exact Hjob]. rewrite H1. now apply IH.
Qed.

(** On documents of these shapes the result is the clean one exactly when
    the document has a name, the loop over the keys finds a trigger key,
    and [jobs] is a mapping whose jobs all have [runs-on] and a list of
    steps that all have a name and an action.  No job and no step are
    needed: an empty [jobs] mapping and an empty list of steps pass. *)
Theorem clean_exactly_when_complete (doc : yaml) :
  well_shaped doc = true ->
  (evaluate doc = (true, [])
   <-> exists m jobs, doc = YMap m /\ has_key (SStr "name") m
                      /\ has_on_field (map fst m) = Ok true
                      /\ dict_lookup "jobs" m = Some (YMap jobs)
                      /\ Forall (fun job => complete_job (snd job)) jobs).
Proof.
  intros Hdoc. split.
  - rewrite (document_runs doc Hdoc).
    destruct (document_renders doc); [|discriminate].
    destruct doc as [k|l|m]; try discriminate.
    unfold document_issues. unfold well_shaped in Hdoc.
    intros H. inversion H as [H']. clear H.
    apply app_eq_nil in H'. destruct H' as [H1 H2].
    apply app_eq_nil in H2. destruct H2 as [H2 H3].
    destruct (dict_lookup "jobs" m) as [[k|l|jobs]|] eqn:J; try discriminate.
    exists m, jobs. split; [reflexivity|].
    destruct (present (dict_lookup "name" m)) eqn:N; [|discriminate].
    split; [now apply present_has_key|].
    destruct (has_on_field (map fst m)) as [[]|e]; try discriminate.
    split; [reflexivity|]. split; [exact J|]. now apply jobs_issues_nil.
  - intros [m [jobs [-> [Hname [Hon [Hjobs Hall]]]]]].
    unfold evaluate, validate_github_actions_workflow.
    rewrite check_workflow_map, Hon, Hjobs, (has_key_present _ _ Hname). cbv zeta.
    now rewrite complete_jobs_silent.
Qed.

Lemma clean_exactly_when_complete_witness :
  evaluate doc_no_jobs_declared = (true, [])
  <-> exists m jobs, doc_no_jobs_declared = YMap m /\ has_key (SStr "name") m
                     /\ has_on_field (map fst m) = Ok true
                     /\ dict_lookup "jobs" m = Some (YMap jobs)
                     /\ Forall (fun job => complete_job (snd job)) jobs.
Proof. apply (clean_exactly_when_complete doc_no_jobs_declared). reflexivity. Defined.

Lemma step_issues_length (job_name : scalar) (i : Z) (step : yaml) :
  (List.length (step_issues job_name i step) <= 2)%nat.
Proof.
  destruct step as [k|l|st]; simpl; try lia.
  destruct (present (dict_lookup "name" st)),
    (present (dict_lookup "uses" st) || present (dict_lookup "run" st)); simpl; lia.
Qed.

Lemma steps_issues_length (job_name : scalar) (steps : list yaml) (i : Z) :
  (List.length (steps_issues job_name i steps) <= 2 * List.length steps)%nat.
Proof.
  revert i. induction steps as [|step steps IH]; intros i; cbn [steps_issues List.length].
  - lia.
  - rewrite length_app. pose proof (step_issues_length job_name i step).
    pose proof (IH (i + 1)). lia.
Qed.

Lemma job_issues_length (job : scalar * yaml) :
  (List.length (job_issues job) <= 2 + 2 * step_count job)%nat.
Proof.
  destruct job as [job_name job_config]. unfold job_issues, step_count. cbn [fst snd].
  destruct job_config as [k|l|j]; simpl; try lia.
  rewrite length_app.
  assert (H : (List.length (if present (dict_lookup "runs-on" j) then []
                            else [msg_job_runs_on job_name]) <= 1)%nat)
    by (destruct (present _); simpl; lia).
  destruct (dict_lookup "steps" j) as [[k|steps|m]|]; simpl; try lia.
  pose proof (steps_issues_length job_name steps 0). lia.
Qed.

Lemma jobs_issues_length (jobs : list (scalar * yaml)) :
  (List.length (flat_map job_issues jobs)
   <= 2 * (List.length jobs + list_sum (map step_count jobs)))%nat.
Proof.
  induction jobs as [|job jobs IH]; cbn [flat_map List.length map].
  - simpl. lia.
  - change (list_sum (step_count job :: map step_count jobs))
      with (step_count job + list_sum (map step_count jobs))%nat.
    rewrite length_app. pose proof (job_issues_length job). lia.
Qed.

(** On documents of these shapes there are at most three Document-scope
    issues and two issues for each job and for each step. *)
Theorem issue_count_bound (doc : yaml) :
  well_shaped doc = true ->
  (List.length (snd (evaluate doc))
   <= 3 + 2 * (List.length (jobs_of doc) + list_sum (map step_count (jobs_of doc))))%nat.
Proof.
  intros Hdoc. rewrite (document_runs doc Hdoc).
  destruct (document_renders doc); cbn [snd]; [|simpl; lia].
  destruct doc as [k|l|m]; try discriminate.
  unfold document_issues, jobs_of. rewrite !length_app.
  assert (H1 : (List.length (if present (dict_lookup "name" m) then []
                             else [msg_missing_name]) <= 1)%nat)
    by (destruct (present _); simpl; lia).
  assert (H2 : (List.length match has_on_field (map fst m) with
                            | Ok true => []
                            | _ => [msg_missing_on]
                            end <= 1)%nat)
    by (destruct (has_on_field _) as [[]|e]; simpl; lia).
  destruct (dict_lookup "jobs" m) as [[k|l|jobs]|].
  - simpl. lia.
  - simpl. lia.
  - pose proof (jobs_issues_length jobs). lia.
  - simpl. lia.
Qed.

Lemma issue_count_bound_witness :
  (List.length (snd (evaluate doc_scenario))
   <= 3 + 2 * (List.length (jobs_of doc_scenario)
               + list_sum (map step_count (jobs_of doc_scenario))))%nat.
Proof. apply (issue_count_bound doc_scenario). reflexivity. Defined.

(** ** A string where the steps should be *)

Lemma occurs_char (k : string) (c : ascii) :
  (2 <= String.length k)%nat -> occurs k (String c EmptyString) = false.
Proof.
  destruct k as [|a [|b k]]; simpl; try lia. intros _.
  destruct (ascii_dec a c); reflexivity.
Qed.

Lemma check_step_char (job_name : scalar) (c : ascii) (s : list text) :
  scalar_renders job_name = true ->
  check_step job_name 0 (YScalar (SStr (String c EmptyString))) s
  = Raise (AttributeError PyStr "get").
Proof.
  intros Hn. unfold check_step, bind, lift, when, py_in, emit, fstring, format.
  rewrite !occurs_char by (simpl; lia). cbn. rewrite Hn. reflexivity.
Qed.

(** When the [steps] of the first job is a non-empty string, its first
    character is taken for a step, has neither name nor action, and the
    call of [get] on it raises: the file is reported as unreadable and
    every issue found before is lost.  This is so when [str()] can format
    every integer of the document; an integer key or job name of more than
    4300 digits raises before. *)
Theorem steps_string_is_read_error (m j rest : list (scalar * yaml))
        (job_name : scalar) (c : ascii) (s : string) :
  dict_lookup "jobs" m = Some (YMap ((job_name, YMap j) :: rest)) ->
  dict_lookup "steps" j = Some (YScalar (SStr (String c s))) ->
  renders (YMap m) = true ->
  evaluate (YMap m) = (false, [msg_read_error (AttributeError PyStr "get")]).
Proof.
  intros Hjobs Hsteps Hr.
  destruct (has_on_field_renders _ (renders_keys m Hr)) as [b Hon].
  pose proof (renders_lookup m "jobs" _ Hr Hjobs) as Hrj.
  destruct (renders_entry _ job_name (YMap j) Hrj (or_introl eq_refl)) as [Hn _].
  unfold evaluate, validate_github_actions_workflow.
  rewrite check_workflow_map, Hon, Hjobs. cbv zeta. cbn [for_each]. unfold bind at 1.
  rewrite check_job_map, Hsteps, Hn, orb_true_r. cbv zeta.
  cbn [py_iter chars for_enumerate].
  unfold bind at 1. rewrite (check_step_char job_name c _ Hn). reflexivity.
Qed.

Lemma steps_string_is_read_error_witness :
  evaluate (YMap [(SStr "jobs",
                   YMap [(SStr "build", YMap [(SStr "steps", str "make")])])])
  = (false, [msg_read_error (AttributeError PyStr "get")]).
Proof.
  apply (steps_string_is_read_error
           [(SStr "jobs", YMap [(SStr "build", YMap [(SStr "steps", str "make")])])]
           [(SStr "steps", str "make")] [] (SStr "build") "m"%char "ake");
    reflexivity.
Defined.

(** ** The counts of main *)

Lemma count_results_filter (results : list (bool * list text)) (v i : Z) :
  count_results results v i
  = (v + Z.of_nat (List.length (filter is_clean results)),
     i + Z.of_nat (List.length (filter is_dirty results))).
Proof.
  revert v i. induction results as [|r results IH]; intros v i; simpl.
  - f_equal; lia.
  - unfold is_dirty at 1. destruct (is_clean r); simpl; rewrite IH; f_equal; lia.
Qed.

Lemma filter_split_length {A} (f : A -> bool) (l : list A) :
  (List.length (filter f l) + List.length (filter (fun x => negb (f x)) l)
   = List.length l)%nat.
Proof.
  induction l as [|x l IH]; simpl; [reflexivity|].
  destruct (f x); simpl; lia.
Qed.

(** The summary of [main]: the first count is the number of results that
    are parsed and without issues, the second the number of the others,
    and together they are the number of files. *)
Theorem main_counts (results : list (bool * list text)) :
  count_results results 0 0
  = (Z.of_nat (List.length (filter is_clean results)),
     Z.of_nat (List.length (filter is_dirty results)))
  /\ fst (count_results results 0 0) + snd (count_results results 0 0)
     = Z.of_nat (List.length results).
Proof.
  rewrite count_results_filter. split; [reflexivity|]. cbn [fst snd].
  pose proof (filter_split_length is_clean results). unfold is_dirty. lia.
Qed.

Lemma main_by_counts (results : list (bool * list text)) :
  main results
  = if (List.length results =? 0)%nat then 1
    else if (List.length (filter is_dirty results) =? 0)%nat then 0 else 1.
Proof.
  unfold main. destruct results as [|r results]; [reflexivity|].
  rewrite count_results_filter. cbn [List.length Nat.eqb].
  destruct (List.length (filter is_dirty (r :: results))); simpl; reflexivity.
Qed.

Lemma filter_length_perm {A} (f : A -> bool) (l l' : list A) :
  Permutation l l' -> List.length (filter f l) = List.length (filter f l').
Proof.
  induction 1 as [|x l l' _ IH|x y l|l l' l'' _ IH1 _ IH2]; simpl.
  - reflexivity.
  - destruct (f x); simpl; congruence.
  - destruct (f x), (f y); reflexivity.
  - congruence.
Qed.

(** The exit status does not depend on the order in which the files are
    visited. *)
Theorem main_order_irrelevant (results results' : list (bool * list text)) :
  Permutation results results' -> main results = main results'.
Proof.
  intros Hperm. rewrite !main_by_counts.
  rewrite (Permutation_length Hperm), (filter_length_perm is_dirty _ _ Hperm).
  reflexivity.
Qed.

Lemma main_order_irrelevant_witness :
  main [(true, []); (false, [msg_read_error (OSError "denied")])]
  = main [(false, [msg_read_error (OSError "denied")]); (true, [])].
Proof.
  apply (main_order_irrelevant
           [(true, []); (false, [msg_read_error (OSError "denied")])]
           [(false, [msg_read_error (OSError "denied")]); (true, [])]).
  apply perm_swap.
Defined.

(** ** From the file system to the exit status *)

Lemma dirty_none_clean (results : list (bool * list text)) :
  List.length (filter is_dirty results) = 0%nat <-> Forall clean results.
Proof.
  induction results as [|r results IH]; simpl.
  - split; [constructor | reflexivity].
  - unfold is_dirty at 1. destruct (is_clean r) eqn:E; simpl.
    + rewrite IH. apply is_clean_iff in E. split.
      * now constructor.
      * intros F. now inversion F.
    + split; [discriminate|]. intros F. inversion F as [|? ? C]; subst.
      apply is_clean_iff in C. congruence.
Qed.

Lemma main_zero (results : list (bool * list text)) :
  main results = 0 <-> results <> [] /\ Forall clean results.
Proof.
  rewrite main_by_counts, <- dirty_none_clean.
  destruct results as [|r results]; cbn [List.length Nat.eqb].
  - split; [discriminate | intros [C _]; now destruct C].
  - destruct (List.length (filter is_dirty (r :: results))); simpl.
    + split; [intros _; split; [discriminate | reflexivity] | reflexivity].
    + split; [discriminate | intros [_ C]; discriminate].
Qed.

Lemma insert_sorted_perm (x : string) (l : list string) :
  Permutation (insert_sorted x l) (x :: l).
Proof.
  induction l as [|y l IH]; simpl; [apply Permutation_refl|].
  destruct (String.leb x y); [apply Permutation_refl|].
  apply perm_trans with (y :: x :: l); [now apply perm_skip | apply perm_swap].
Qed.

Lemma sorted_perm (l : list string) : Permutation (sorted l) l.
Proof.
  induction l as [|x l IH]; simpl; [constructor|].
  apply perm_trans with (x :: sorted l); [apply insert_sorted_perm | now apply perm_skip].
Qed.

(** [main] ends with status 0 exactly when the workflows directory can be
    listed, holds at least one name ending in [.yml] or [.yaml], and every
    file of such a name loads and gets no issue.  Names with other endings
    are not looked at. *)
Theorem main_run_succeeds (fs : string -> listing) (load : string -> result yaml) :
  main_run fs load = Ok 0
  <-> exists names,
        fs "./.github/workflows" = Entries names
        /\ (exists f, In f names /\ is_yaml_name f = true)
        /\ forall f, In f names -> is_yaml_name f = true ->
                     validate_github_actions_workflow
                       (load (path_join "./.github/workflows" f)) = (true, []).
Proof.
  unfold main_run, find_workflow_files.
  change (path_join (path_join "." ".github") "workflows") with "./.github/workflows".
  destruct (fs "./.github/workflows") as [|names|e].
  - split; [discriminate | intros [names [C _]]; discriminate].
  - set (paths := map (path_join "./.github/workflows") (filter is_yaml_name names)).
    set (validate := fun file_path => validate_github_actions_workflow (load file_path)).
    assert (Hmain : main (map validate (sorted paths)) = 0
                    <-> paths <> [] /\ Forall (fun p => clean (validate p)) paths).
    { rewrite main_zero. rewrite Forall_map.
      rewrite (Forall_forall _ (sorted paths)), (Forall_forall _ paths).
      split; intros [Hne Hall]; split.
      - intros C. apply Hne. rewrite C. reflexivity.
      - intros p Hp. apply Hall. apply (Permutation_in p (Permutation_sym (sorted_perm paths)) Hp).
      - intros C. apply map_eq_nil in C.
        apply Hne. apply Permutation_nil. rewrite <- C. apply sorted_perm.
      - intros p Hp. apply Hall. apply (Permutation_in p (sorted_perm paths) Hp). }
    split.
    + intros H. inversion H as [H0]. apply Hmain in H0. destruct H0 as [Hne Hall].
      exists names. split; [reflexivity|]. split.
      * destruct (filter is_yaml_name names) as [|f l] eqn:F; [now destruct Hne|].
        exists f. apply filter_In. rewrite F. now left.
      * intros f Hf Hy. rewrite Forall_forall in Hall.
        assert (Hin : In (path_join "./.github/workflows" f) paths).
        { apply in_map. apply filter_In. now split. }
        destruct (Hall _ Hin) as [H1 H2]. unfold validate in H1, H2.
        destruct (validate_github_actions_workflow _); simpl in *; congruence.
    + intros [names' [E [[f [Hf Hy]] Hall]]]. inversion E; subst names'.
      f_equal. apply Hmain. split.
      * intros C. apply map_eq_nil in C.
        assert (Hin : In f (filter is_yaml_name names)) by (apply filter_In; now split).
        rewrite C in Hin. destruct Hin.
      * apply Forall_forall. intros p Hp. apply in_map_iff in Hp.
        destruct Hp as [f' [<- Hf']]. apply filter_In in Hf'. destruct Hf' as [H1 H2].
        unfold validate. rewrite (Hall f' H1 H2). split; reflexivity.
  - split; [discriminate | intros [names [C _]]; discriminate].
Qed.

(** ** validate-yaml.py: the files found *)

Lemma tree_induction (P : ValidateYaml.tree -> Prop) :
  (forall dirs files, Forall (fun entry => P (snd entry)) dirs ->
                      P (ValidateYaml.Dir dirs files)) ->
  forall t, P t.
Proof.
  intros H. fix IH 1. intros [dirs files]. apply H.
  induction dirs as [|[d sub] dirs IHdirs]; constructor; [apply IH | exact IHdirs].
Qed.

(** A path is found exactly when it is the path of a file of the tree
    whose name ends in [.yml] or [.yaml] and whose directories, from the
    root down, all pass the pruning test. *)
Theorem find_yaml_files_exactly (t : ValidateYaml.tree) (root p : string) :
  In p (ValidateYaml.find_yaml_files root t)
  <-> exists path f, ValidateYaml.file_at t path f
                     /\ forallb ValidateYaml.keep_dir path = true
                     /\ is_yaml_name f = true
                     /\ p = ValidateYaml.path_of root path f.
Proof.
  revert root. induction t as [dirs files IH] using tree_induction. intros root.
  cbn [ValidateYaml.find_yaml_files]. rewrite in_app_iff, in_map_iff, in_flat_map.
  rewrite Forall_forall in IH. split.
  - intros [[f [<- Hf]]|[[d sub] [Hin Hp]]].
    + apply filter_In in Hf. destruct Hf as [Hf Hy].
      exists [], f. repeat split; [now constructor | exact Hy].
    + destruct (ValidateYaml.keep_dir d) eqn:K; [|destruct Hp].
      apply (IH _ Hin) in Hp. destruct Hp as [path [f [Hat [Hk [Hy ->]]]]].
      exists (d :: path), f. split; [now apply ValidateYaml.file_below with sub|].
      split; [cbn [forallb]; now rewrite K, Hk|]. split; [exact Hy | reflexivity].
  - intros [path [f [Hat [Hk [Hy ->]]]]]. inversion Hat as [? ? ? Hf|? ? d sub path' ? Hin Hsub]; subst.
    + left. exists f. split; [reflexivity|]. apply filter_In. now split.
    + right. exists (d, sub). split; [exact Hin|].
      cbn [forallb] in Hk. apply andb_prop in Hk. destruct Hk as [K Hk]. rewrite K.
      apply (IH _ Hin). exists path', f. repeat split; assumption.
Qed.

(** The pruning test keeps [.github] and the directories whose name
    neither starts with a dot nor is [node_modules]; the test for [.git]
    adds nothing to the one for hidden directories. *)
Theorem keep_dir_exactly (d : string) :
  ValidateYaml.keep_dir d = true
  <-> d = ".github" \/ (prefix "." d = false /\ d <> "node_modules").
Proof.
  unfold ValidateYaml.keep_dir.
  destruct (String.eqb_spec d ".git") as [->|Hgit]; simpl.
  { split; [discriminate | intros [C|[C _]]; discriminate]. }
  destruct (String.eqb_spec d "node_modules") as [->|Hnode]; simpl.
  { split; [discriminate | intros [C|[_ C]]; [discriminate | now destruct C]]. }
  destruct (String.eqb_spec d ".github") as [->|Hgithub]; simpl.
  { split; [now left | reflexivity]. }
  rewrite andb_true_r. destruct (prefix "." d); simpl.
  - split; [discriminate | intros [C|[C _]]; [contradiction | discriminate]].
  - split; [intros _; right; now split | reflexivity].
Qed.

(** ** validate-yaml.py and the workflow validator on one file *)

(** A file the workflow validator reports as parsed passes the syntax
    check of [validate_yaml_file]. *)
Theorem workflow_parsed_passes_syntax_check (loaded : result yaml) :
  fst (validate_github_actions_workflow loaded) = true ->
  ValidateYaml.validate_yaml_file loaded = (true, None).
Proof.
  destruct loaded as [doc|e]; [reflexivity|]. destruct e; discriminate.
Qed.

Lemma workflow_parsed_passes_syntax_check_witness :
  ValidateYaml.validate_yaml_file (Ok doc_scenario) = (true, None).
Proof. apply (workflow_parsed_passes_syntax_check (Ok doc_scenario)). reflexivity. Defined.


(** ** validate-yaml.py: the exit status *)

Lemma count_valid_invalid (results : list (bool * option text)) (v i : Z) :
  0 <= i ->
  i <= snd (ValidateYaml.count_valid results v i)
  /\ (snd (ValidateYaml.count_valid results v i) = i
      <-> Forall (fun r => fst r = true) results).
Proof.
  revert v i. induction results as [|[[] err] results IH]; intros v i Hi; simpl.
  - split; [lia|]. split; [constructor | reflexivity].
  - destruct (IH (v + 1) i Hi) as [H1 H2]. split; [exact H1|]. rewrite H2. split.
    + now constructor.
    + intros F. now inversion F.
  - destruct (IH v (i + 1) ltac:(lia)) as [H1 H2]. split; [lia|]. split.
    + lia.
    + intros F. inversion F as [|? ? C]; subst. discriminate.
Qed.

(** The syntax check of the tree ends with status 0 exactly when at least
    one YAML file is found and every file found loads, and with status 1
    in every other case. *)
Theorem yaml_main_succeeds (t : ValidateYaml.tree) (load : string -> result yaml) :
  (ValidateYaml.main t load = 0
   <-> ValidateYaml.find_yaml_files "." t <> []
       /\ forall p, In p (ValidateYaml.find_yaml_files "." t) ->
                    exists doc, load p = Ok doc)
  /\ (ValidateYaml.main t load = 1
      <-> ~ (ValidateYaml.find_yaml_files "." t <> []
             /\ forall p, In p (ValidateYaml.find_yaml_files "." t) ->
                          exists doc, load p = Ok doc)).
Proof.
  assert (H : (ValidateYaml.main t load = 0
               <-> ValidateYaml.find_yaml_files "." t <> []
                   /\ forall p, In p (ValidateYaml.find_yaml_files "." t) ->
                                exists doc, load p = Ok doc)
              /\ (ValidateYaml.main t load = 0 \/ ValidateYaml.main t load = 1)).
  { unfold ValidateYaml.main.
    destruct (ValidateYaml.find_yaml_files "." t) as [|p0 paths].
    - split; [|now right]. split; [discriminate | intros [C _]; now destruct C].
    - set (files := p0 :: paths).
      set (results := map (fun file_path =>
                             ValidateYaml.validate_yaml_file (load file_path))
                          (sorted files)).
      destruct (ValidateYaml.count_valid results 0 0) as [v i] eqn:E.
      pose proof (count_valid_invalid results 0 0 ltac:(lia)) as [H1 H2].
      rewrite E in H1, H2. cbn [snd] in H1, H2.
      assert (Hall : Forall (fun r => fst r = true) results
                     <-> forall p, In p files -> exists doc, load p = Ok doc).
      { unfold results. rewrite Forall_map, Forall_forall. split.
        - intros H p Hp.
          assert (Hs : In p (sorted files))
            by exact (Permutation_in p (Permutation_sym (sorted_perm files)) Hp).
          specialize (H p Hs). destruct (load p) as [doc|e]; [now exists doc|].
          destruct e; discriminate.
        - intros H p Hp.
          destruct (H p (Permutation_in p (sorted_perm files) Hp)) as [doc ->].
          reflexivity. }
      destruct (0 <? i) eqn:L.
      + apply Z.ltb_lt in L. split; [|now right]. split; [discriminate|].
        intros [_ F]. apply Hall, H2 in F. lia.
      + apply Z.ltb_ge in L. split; [|now left]. split; [|reflexivity].
        intros _. split; [discriminate|]. apply Hall, H2. lia. }
  destruct H as [H0 H01]. split; [exact H0|].
  rewrite <- H0. destruct H01 as [H|H]; rewrite H; split; intros C;
    try discriminate; try reflexivity; now destruct C.
Qed.

(** ** validate-all.py *)

Lemma run_command_true (sh : string -> ValidateAll.outcome) (command : string) :
  ValidateAll.run_command sh command = true <-> sh command = ValidateAll.Exited 0.
Proof.
  unfold ValidateAll.run_command. destruct (sh command) as [returncode|e].
  - rewrite Z.eqb_eq. split; [now intros -> | intros H; now inversion H].
  - split; discriminate.
Qed.

Lemma check_counts (sh : string -> ValidateAll.outcome) (command : string)
      (success_count total_count : Z) :
  ValidateAll.check sh command (success_count, total_count)
  = (success_count + (if ValidateAll.run_command sh command then 1 else 0),
     total_count + 1).
Proof.
  unfold ValidateAll.check.
  destruct (ValidateAll.run_command sh command); f_equal; lia.
Qed.

Lemma run_checks_all (sh : string -> ValidateAll.outcome) :
  snd (ValidateAll.run_checks sh) = 7
  /\ 0 <= fst (ValidateAll.run_checks sh) <= 7
  /\ (fst (ValidateAll.run_checks sh) = 7
      <-> forallb (ValidateAll.run_command sh) ValidateAll.commands = true).
Proof.
  unfold ValidateAll.run_checks, ValidateAll.commands. cbv zeta.
  rewrite !check_counts. cbn [fst snd forallb].
  destruct (ValidateAll.run_command sh "python3 scripts/validate-yaml.py"),
    (ValidateAll.run_command sh "python3 scripts/validate-github-actions.py"),
    (ValidateAll.run_command sh "dotnet --version"),
    (ValidateAll.run_command sh "dotnet sln list"),
    (ValidateAll.run_command sh "docker --version"),
    (ValidateAll.run_command sh "docker-compose config"),
    (ValidateAll.run_command sh "ls -la src/ tests/ docs/");
    cbn; (split; [reflexivity|]); (split; [lia|]);
    split; intros H; try reflexivity; try discriminate H.
Qed.

Lemma all_main_zero (virtual_env : option string) (activate_exists : bool)
      (sh : string -> ValidateAll.outcome) :
  ValidateAll.main virtual_env activate_exists sh = 0
  <-> (ValidateAll.no_virtual_env virtual_env = false \/ activate_exists = true)
      /\ forallb (ValidateAll.run_command sh) ValidateAll.commands = true.
Proof.
  unfold ValidateAll.main.
  destruct (run_checks_all sh) as [Htotal [Hrange Hall]].
  destruct (ValidateAll.run_checks sh) as [success_count total_count].
  cbn [fst snd] in *. subst total_count. rewrite <- Hall.
  destruct (ValidateAll.no_virtual_env virtual_env), activate_exists; cbn [andb negb];
    try (split; [discriminate | intros [[C|C] _]; discriminate]);
    destruct (Z.eqb_spec success_count 7);
    (split; [intros H; try discriminate H; split; auto | intros [_ H]; auto; contradiction]).
Qed.

(** The comprehensive run counts seven checks, whatever the commands do,
    and ends with status 0 exactly when a virtual environment is active or
    its activation script exists, and each of the seven commands exits with
    return code 0; a command that cannot be started counts as failed. *)
Theorem comprehensive_main_succeeds (virtual_env : option string)
        (activate_exists : bool) (sh : string -> ValidateAll.outcome) :
  snd (ValidateAll.run_checks sh) = 7
  /\ (ValidateAll.main virtual_env activate_exists sh = 0
      <-> (ValidateAll.no_virtual_env virtual_env = false \/ activate_exists = true)
          /\ Forall (fun command => sh command = ValidateAll.Exited 0)
                    ValidateAll.commands).
Proof.
  split; [apply run_checks_all|].
  rewrite all_main_zero, forallb_forall, Forall_forall.
  split; intros [Hv Hall]; (split; [exact Hv|]); intros c Hc;
    apply run_command_true; now apply Hall.
Qed.

(** When the second command is this workflow validator run on the file
    system [fs], a comprehensive run that ends with status 0 means that
    the validator's [main] returned 0. *)
Theorem comprehensive_needs_clean_workflows (virtual_env : option string)
        (activate_exists : bool) (sh : string -> ValidateAll.outcome)
        (fs : string -> listing) (load : string -> result yaml) :
  sh "python3 scripts/validate-github-actions.py"
  = ValidateAll.Exited (exit_status (main_run fs load)) ->
  ValidateAll.main virtual_env activate_exists sh = 0 ->
  main_run fs load = Ok 0.
Proof.
  intros Hsh Hmain. apply all_main_zero in Hmain. destruct Hmain as [_ Hall].
  rewrite forallb_forall in Hall.
  assert (Hc : ValidateAll.run_command sh "python3 scripts/validate-github-actions.py"
               = true).
  { apply Hall. unfold ValidateAll.commands. simpl. right. now left. }
  apply run_command_true in Hc. rewrite Hsh in Hc. inversion Hc as [Hs].
  destruct (main_run fs load) as [status|e]; simpl in Hs; [now subst | discriminate].
Qed.

Lemma comprehensive_needs_clean_workflows_witness :
  main_run (fun _ => Entries ["ci.yml"; "README.md"]) (fun _ => Ok doc_minimal) = Ok 0.
Proof.
  apply (comprehensive_needs_clean_workflows (Some "/srv/venv") false
           (fun _ => ValidateAll.Exited 0)); reflexivity.
Defined.
